(** * Route composition engine of the itinerary planner

    A shallow embedding of the route logic of
    [src/components/ItineraryPlanner.tsx]: the haversine distance
    ([calculateDistance]), the greedy reordering of the selected places
    ([optimizeRoute]) and the route synthesizer ([generateRoute]).

    JavaScript numbers are modelled as real numbers, for what does not depend
    on rounding or on NaN; integer-valued numbers that drive a loop (the
    sample count, the loop counters, array indices) are integers. The
    ordering loop depends on both: it is embedded a second time on binary64
    doubles. *)

From Stdlib Require Import String DecimalString.
From Stdlib Require Import Floats.
From Stdlib Require Import Reals Lra Lia Bool Arith ZArith List Permutation Sorted.
Import ListNotations.

Local Open Scope string_scope.
Local Open Scope list_scope.
Local Open Scope R_scope.

(** ** Data model (the interfaces at the top of the component) *)

Module Location.
Record t : Type := mk { lat : R; lon : R }.
End Location.

Module Place.
Record t : Type := mk {
  id : string;
  name : string;
  description : option string;
  location : Location.t;
  distance : option R;
  category : option string;
  image : option string
}.
End Place.

(** A pair of numbers, [[number, number]] in the source. *)
Definition Coord : Type := (R * R)%type.

Module RouteStep.
Record t : Type := mk {
  instruction : string;
  distance : R;
  duration : R;
  startLocation : Coord;
  endLocation : Coord;
  fromPlace : option string;
  toPlace : option string
}.
End RouteStep.

Module Route.
Record t : Type := mk {
  duration : R;
  distance : R;
  steps : list RouteStep.t;
  coordinates : list Coord
}.
End Route.

(** ** Completions: a call returns a value or throws an error object *)

Record JsError : Type := { error_name : string; error_message : string }.

Definition TypeError (message : string) : JsError :=
  {| error_name := "TypeError"; error_message := message |}.

Inductive Completion (A : Type) : Type :=
| Normal (a : A)
| Throw (e : JsError).
Arguments Normal {A} a.
Arguments Throw {A} e.

(** ** The Math functions the component uses *)

(** [Math.atan2(y, x)]: the angle of the point (x, y), in (-PI, PI]. *)
Definition Math_atan2 (y x : R) : R :=
  if Rlt_dec 0 x then atan (y / x)
  else if Rlt_dec x 0 then
    (if Rle_dec 0 y then atan (y / x) + PI else atan (y / x) - PI)
  else if Rlt_dec 0 y then PI / 2
  else if Rlt_dec y 0 then - (PI / 2)
  else 0.

(** [Math.floor], as an integer. *)
Definition Math_floor (x : R) : Z := Zfloor x.

(** [Math.round]: the nearest integer, a tie going to the larger one. *)
Definition Math_round (x : R) : R := IZR (Zfloor (x + / 2)).

(** [parseFloat(x.toFixed(1))]: [toFixed] takes the sign off, picks the
    integer [n] with [n / 10] nearest to the magnitude (the larger [n] on a
    tie) and prints [n / 10]; from 10^21 on it prints the number itself. *)
Definition toFixed1 (x : R) : R :=
  let magnitude := Rabs x in
  let printed :=
    if Rle_dec (10 ^ 21) magnitude then magnitude
    else IZR (Zfloor (magnitude * 10 + / 2)) / 10 in
  if Rlt_dec x 0 then - printed else printed.

(** ** calculateDistance: the haversine formula

    In exact arithmetic; [calculateDistance64], further down, is the same
    body on doubles, where rounding can take [a] above 1 and make the
    result NaN. *)

Definition calculateDistance (lat1 lon1 lat2 lon2 : R) : R :=
  let R_earth := 6371 in
  let dLat := (lat2 - lat1) * PI / 180 in
  let dLon := (lon2 - lon1) * PI / 180 in
  let a :=
    sin (dLat / 2) * sin (dLat / 2) +
    cos (lat1 * PI / 180) * cos (lat2 * PI / 180) *
    sin (dLon / 2) * sin (dLon / 2) in
  let c := 2 * Math_atan2 (sqrt a) (sqrt (1 - a)) in
  R_earth * c.

(** The distance from the current point to a place, as both loops of
    [optimizeRoute] compute it. *)
Definition distanceTo (currentPoint : Location.t) (p : Place.t) : R :=
  calculateDistance
    (Location.lat currentPoint) (Location.lon currentPoint)
    (Location.lat (Place.location p)) (Location.lon (Place.location p)).

(** ** optimizeRoute: the greedy reordering *)

(** The scan [for (let i = 1; i < remainingPlaces.length; i++)]: [rest] is
    what is left of the pool from index [i] on; the pair is
    [(closestIdx, closestDistance)]. The distances are exact here, and
    never NaN; [closestScan64] is the scan on doubles. *)
Fixpoint closestScan (currentPoint : Location.t) (i : nat) (rest : list Place.t)
    (closestIdx : nat) (closestDistance : R) : nat * R :=
  match rest with
  | [] => (closestIdx, closestDistance)
  | p :: rest' =>
      let distance := distanceTo currentPoint p in
      if Rlt_dec distance closestDistance
      then closestScan currentPoint (S i) rest' i distance
      else closestScan currentPoint (S i) rest' closestIdx closestDistance
  end.

(** [closestIdx] after the scan, for a pool that starts with [first]. *)
Definition closestIdx (currentPoint : Location.t) (first : Place.t)
    (others : list Place.t) : nat :=
  fst (closestScan currentPoint 1 others 0 (distanceTo currentPoint first)).

(** [array.filter((_, idx) => keep(idx))], with [idx] the index of the head. *)
Fixpoint filter_index {A : Type} (keep : nat -> bool) (idx : nat) (l : list A)
    : list A :=
  match l with
  | [] => []
  | x :: l' =>
      if keep idx then x :: filter_index keep (S idx) l'
      else filter_index keep (S idx) l'
  end.

(** The loop [while (remainingPlaces.length > 0)]. [None] is a loop that has
    not finished when the fuel runs out. Reading [remainingPlaces[closestIdx]]
    out of range gives undefined, whose [location] is a TypeError. *)
Fixpoint orderLoop (fuel : nat) (currentPoint : Location.t)
    (remainingPlaces orderedPlaces : list Place.t)
    : option (Completion (list Place.t)) :=
  match remainingPlaces with
  | [] => Some (Normal orderedPlaces)
  | first :: others =>
      match fuel with
      | O => None
      | S fuel' =>
          let closestIdx := closestIdx currentPoint first others in
          match nth_error remainingPlaces closestIdx with
          | None =>
              Some (Throw (TypeError
                "Cannot read properties of undefined (reading 'location')"))
          | Some nextPlace =>
              let orderedPlaces := orderedPlaces ++ [nextPlace] in
              let currentPoint :=
                Location.mk (Location.lat (Place.location nextPlace))
                            (Location.lon (Place.location nextPlace)) in
              let remainingPlaces :=
                filter_index (fun idx => negb (Nat.eqb idx closestIdx)) 0
                  remainingPlaces in
              orderLoop fuel' currentPoint remainingPlaces orderedPlaces
          end
      end
  end.

(** Lines 109-139 of [optimizeRoute]: the places in visiting order. *)
Definition orderedPlaces (fuel : nat) (userLocation : Coord)
    (selectedPlaces : list Place.t) : option (Completion (list Place.t)) :=
  let startPoint := Location.mk (fst userLocation) (snd userLocation) in
  orderLoop fuel startPoint selectedPlaces [].

(** ** The turf functions the synthesizer calls

    [turf] is an imported package. [turf.lineString] builds a line from its
    coordinates; [length] and [along] (with [units: 'kilometers'], [along]
    followed by [.geometry.coordinates]) are taken as an interface. *)

Record LineString : Type := lineString { line_coordinates : list Coord }.

Class Turf : Type := {
  turf_length : LineString -> R;
  turf_along : LineString -> R -> Coord
}.

(** A straight-line implementation of the interface, used to run the
    synthesizer on concrete points: the length of a two-point line is the sum
    of its coordinate differences, and [along] interpolates linearly. *)
Definition chord_length (line : LineString) : R :=
  match line_coordinates line with
  | [a; b] => Rabs (fst b - fst a) + Rabs (snd b - snd a)
  | _ => 0
  end.

Definition chord_along (line : LineString) (d : R) : Coord :=
  match line_coordinates line with
  | [a; b] =>
      let t := d / chord_length line in
      (fst a + (fst b - fst a) * t, snd a + (snd b - snd a) * t)
  | a :: _ => a
  | [] => (0, 0)
  end.

Definition chordTurf : Turf :=
  {| turf_length := chord_length; turf_along := chord_along |}.

(** ** generateRoute: the route synthesizer *)

(** The travel modes of the component's [transportMode] state. *)
Definition travelModes : list string :=
  ["driving-car"; "cycling-regular"; "foot-walking"].

(** The speed in km/h: 40 unless the mode is one of the two tested for. *)
Definition modeSpeed (mode : string) : R :=
  let speed := 40 in
  let speed := if String.eqb mode "cycling-regular" then 15 else speed in
  let speed := if String.eqb mode "foot-walking" then 5 else speed in
  speed.

(** [duration = (distance / speed) * 60], in minutes. *)
Definition legDuration (distance : R) (mode : string) : R :=
  (distance / modeSpeed mode) * 60.

(** [Math.max(5, Math.floor(lineDistance / 0.5))]: one point every 500 m. *)
Definition sampleSteps (lineDistance : R) : Z :=
  Z.max 5 (Math_floor (lineDistance / 0.5)).

(** The values the name [steps] is bound to in [generateRoute]: the array of
    route steps of the function body, and the sample count of the loop body. *)
Inductive JsValue : Type :=
| JsNumber (x : R)
| JsSteps (a : list RouteStep.t).

(** The call [receiver.push(item)]: arrays have the method, numbers do not,
    and calling a missing method throws. *)
Definition call_push (receiver : JsValue) (item : RouteStep.t)
    : Completion JsValue :=
  match receiver with
  | JsSteps a => Normal (JsSteps (a ++ [item]))
  | JsNumber _ => Throw (TypeError "steps.push is not a function")
  end.

(** The variables of [generateRoute] that outlive one iteration. *)
Module Acc.
Record t : Type := mk {
  coordinates : list Coord;
  steps : list RouteStep.t;
  totalDistance : R;
  totalDuration : R
}.
End Acc.

(** [coordinates = []], [steps = []], [totalDistance = 0],
    [totalDuration = 0]. *)
Definition emptyAcc : Acc.t :=
  {| Acc.coordinates := []; Acc.steps := [];
     Acc.totalDistance := 0; Acc.totalDuration := 0 |}.

Section Synthesizer.
Context {turf : Turf}.

(** The loop [for (let j = 0; j <= steps; j++)] that fills
    [segmentCoordinates]. *)
Definition segmentCoordinates (fromCoord toCoord : Coord) : list Coord :=
  let line := lineString [fromCoord; toCoord] in
  let lineDistance := turf_length line in
  let steps := sampleSteps lineDistance in
  map (fun j : nat =>
         let segment := INR j / IZR steps in
         turf_along line (lineDistance * segment))
      (seq 0 (S (Z.to_nat steps))).

(** One iteration of [for (let i = 0; i < points.length - 1; i++)]. The
    body declares its own [const steps], the sample count, so the
    [steps.push] that ends the body has that number as its receiver. *)
Definition routeLeg (acc : Acc.t) (i : nat) (from to : Place.t)
    (mode : string) : Completion Acc.t :=
  let fromCoord : Coord :=
    (Location.lon (Place.location from), Location.lat (Place.location from)) in
  let toCoord : Coord :=
    (Location.lon (Place.location to), Location.lat (Place.location to)) in
  let distance :=
    calculateDistance
      (Location.lat (Place.location from)) (Location.lon (Place.location from))
      (Location.lat (Place.location to)) (Location.lon (Place.location to)) in
  let duration := legDuration distance mode in
  let totalDistance := Acc.totalDistance acc + distance in
  let totalDuration := Acc.totalDuration acc + duration in
  let line := lineString [fromCoord; toCoord] in
  let lineDistance := turf_length line in
  let steps := JsNumber (IZR (sampleSteps lineDistance)) in
  let segmentCoordinates := segmentCoordinates fromCoord toCoord in
  let coordinates :=
    if Nat.eqb i 0 then Acc.coordinates acc ++ segmentCoordinates
    else Acc.coordinates acc ++ skipn 1 segmentCoordinates in
  match
    call_push steps
      {| RouteStep.instruction := ("Head to " ++ Place.name to)%string;
         RouteStep.distance := Math_round (distance * 1000);
         RouteStep.duration := Math_round duration;
         RouteStep.startLocation :=
           (Location.lat (Place.location from),
            Location.lon (Place.location from));
         RouteStep.endLocation :=
           (Location.lat (Place.location to),
            Location.lon (Place.location to));
         RouteStep.fromPlace := Some (Place.name from);
         RouteStep.toPlace := Some (Place.name to) |}
  with
  | Throw e => Throw e
  | Normal _ =>
      Normal {| Acc.coordinates := coordinates;
                Acc.steps := Acc.steps acc;
                Acc.totalDistance := totalDistance;
                Acc.totalDuration := totalDuration |}
  end.

(** The loop over the consecutive pairs [points[i]], [points[i + 1]];
    [points] is what is left of the array from index [i] on. *)
Fixpoint routeLoop (i : nat) (points : list Place.t) (acc : Acc.t)
    (mode : string) : Completion Acc.t :=
  match points with
  | from :: ((to :: _) as rest) =>
      match routeLeg acc i from to mode with
      | Throw e => Throw e
      | Normal acc' => routeLoop (S i) rest acc' mode
      end
  | _ => Normal acc
  end.

Definition generateRoute (points : list Place.t) (mode : string)
    : Completion Route.t :=
  match routeLoop 0 points emptyAcc mode with
  | Throw e => Throw e
  | Normal acc =>
      Normal {| Route.distance := toFixed1 (Acc.totalDistance acc);
                Route.duration := Math_round (Acc.totalDuration acc);
                Route.steps := Acc.steps acc;
                Route.coordinates := Acc.coordinates acc |}
  end.

(** ** The two callers, on the state of the component *)

(** The state the route logic reads and writes, with what was passed to
    [console.error] and to [onRouteGenerated]. *)
Record PlannerState : Type := {
  selectedPlaces : list Place.t;
  optimizedRoute : option Route.t;
  transportMode : string;
  consoleErrors : list JsError;
  routesGenerated : list Route.t
}.

(** The first element of [allPoints]. *)
Definition userPoint (userLocation : Coord) : Place.t :=
  {| Place.id := "user"; Place.name := "Your Location";
     Place.description := None;
     Place.location := Location.mk (fst userLocation) (snd userLocation);
     Place.distance := None; Place.category := None; Place.image := None |}.

(** [generateRoute(allPoints, transportMode)] inside [try]/[catch]: the
    route is stored and handed to the callback, or the error is logged. *)
Definition routeInto (st : PlannerState) (userLocation : Coord)
    (places : list Place.t) : PlannerState :=
  let allPoints := userPoint userLocation :: places in
  match generateRoute allPoints (transportMode st) with
  | Normal route =>
      {| selectedPlaces := selectedPlaces st;
         optimizedRoute := Some route;
         transportMode := transportMode st;
         consoleErrors := consoleErrors st;
         routesGenerated := routesGenerated st ++ [route] |}
  | Throw e =>
      {| selectedPlaces := selectedPlaces st;
         optimizedRoute := optimizedRoute st;
         transportMode := transportMode st;
         consoleErrors := consoleErrors st ++ [e];
         routesGenerated := routesGenerated st |}
  end.

Definition generateItinerary (userLocation : option Coord)
    (st : PlannerState) : PlannerState :=
  match userLocation, selectedPlaces st with
  | None, _ | _, [] => st
  | Some userLocation, _ :: _ => routeInto st userLocation (selectedPlaces st)
  end.

(** [setSelectedPlaces(orderedPlaces)] comes before the call of
    [generateRoute], so the new order stays when that call throws. *)
Definition optimizeRoute (fuel : nat) (userLocation : option Coord)
    (st : PlannerState) : option PlannerState :=
  match userLocation, selectedPlaces st with
  | None, _ | _, [] => Some st
  | Some userLocation, _ :: _ =>
      match orderedPlaces fuel userLocation (selectedPlaces st) with
      | None => None
      | Some (Throw e) =>
          Some {| selectedPlaces := selectedPlaces st;
                  optimizedRoute := optimizedRoute st;
                  transportMode := transportMode st;
                  consoleErrors := consoleErrors st ++ [e];
                  routesGenerated := routesGenerated st |}
      | Some (Normal orderedPlaces) =>
          let st' :=
            {| selectedPlaces := orderedPlaces;
               optimizedRoute := optimizedRoute st;
               transportMode := transportMode st;
               consoleErrors := consoleErrors st;
               routesGenerated := routesGenerated st |} in
          Some (routeInto st' userLocation orderedPlaces)
      end
  end.
End Synthesizer.

(** ** The ordering heuristic as the specification words it

    "Compute distance from current position to every remaining pool member;
    select the minimum; tie-break by input order (first occurrence wins);
    append selected point to the output sequence; remove it from the pool;
    set current position to the selected point's coordinates." *)

(** [pool[k] = p] is at minimum distance from [currentPoint], and no earlier
    pool member is as near. *)
Definition nearestAt (currentPoint : Location.t) (pool : list Place.t)
    (k : nat) (p : Place.t) : Prop :=
  nth_error pool k = Some p /\
  (forall j q, nth_error pool j = Some q ->
     distanceTo currentPoint p <= distanceTo currentPoint q) /\
  (forall j q, (j < k)%nat -> nth_error pool j = Some q ->
     distanceTo currentPoint p < distanceTo currentPoint q).

(** The pool without its member at index [k]. *)
Definition removeAt {A : Type} (k : nat) (pool : list A) : list A :=
  firstn k pool ++ skipn (S k) pool.

(** [GreedyTour currentPoint pool tour]: [tour] is what the repeated
    selection produces from [pool], starting at [currentPoint]. *)
Inductive GreedyTour : Location.t -> list Place.t -> list Place.t -> Prop :=
| GreedyTour_empty currentPoint :
    GreedyTour currentPoint [] []
| GreedyTour_next currentPoint pool k p tour :
    nearestAt currentPoint pool k p ->
    GreedyTour (Place.location p) (removeAt k pool) tour ->
    GreedyTour currentPoint pool (p :: tour).

(** What the scan knows of the pool prefix it has been through: the champion
    is a member of the prefix, at minimum distance there, and first so. *)
Definition champion (currentPoint : Location.t) (seen : list Place.t)
    (k : nat) (d : R) : Prop :=
  exists p, nearestAt currentPoint seen k p /\ d = distanceTo currentPoint p.

(** ** The scenario of the specification

    Origin at (37.0, -122.0), stops A (37.01, -122.0) and B (37.0, -122.02). *)

Definition scenarioOrigin : Coord := (37, -122).

(** A place with nothing but an identifier (also its name) and a location. *)
Definition placeAt (ident : string) (lat lon : R) : Place.t :=
  {| Place.id := ident; Place.name := ident; Place.description := None;
     Place.location := Location.mk lat lon;
     Place.distance := None; Place.category := None; Place.image := None |}.

Definition stopA : Place.t := placeAt "A" (3701 / 100) (-122).

Definition stopB : Place.t := placeAt "B" 37 (-12202 / 100).

(** The component with A and B selected, walking, and no route yet. *)
Definition scenarioState : PlannerState :=
  {| selectedPlaces := [stopA; stopB];
     optimizedRoute := None;
     transportMode := "foot-walking";
     consoleErrors := [];
     routesGenerated := [] |}.

(** Three stops north of the origin, on its meridian. *)
Definition north1 : Place.t := placeAt "N1" (3701 / 100) (-122).
Definition north2 : Place.t := placeAt "N2" (3702 / 100) (-122).
Definition north3 : Place.t := placeAt "N3" (3703 / 100) (-122).

(** A second place at the location of [north1]. *)
Definition north1' : Place.t := placeAt "N1'" (3701 / 100) (-122).

(** A call that ends in an error named InvalidMode. *)
Definition rejectsWithInvalidMode {A : Type} (outcome : Completion A) : Prop :=
  exists e, outcome = Throw e /\ error_name e = "InvalidMode".

(** ** The selection: togglePlaceSelection and "Select All" *)

(** [selectedPlaces.some(p => p.id === place.id)]. *)
Definition isSelected (selectedPlaces : list Place.t) (place : Place.t) : bool :=
  existsb (fun p => String.eqb (Place.id p) (Place.id place)) selectedPlaces.

(** A click on a place: every selected place with its identifier is taken
    out, or the place is put at the end; the route is reset either way. *)
Definition togglePlaceSelection (place : Place.t) (st : PlannerState)
    : PlannerState :=
  {| selectedPlaces :=
       if isSelected (selectedPlaces st) place
       then filter (fun p => negb (String.eqb (Place.id p) (Place.id place)))
              (selectedPlaces st)
       else selectedPlaces st ++ [place];
     optimizedRoute := None;
     transportMode := transportMode st;
     consoleErrors := consoleErrors st;
     routesGenerated := routesGenerated st |}.

(** ** handleSubmitItinerary and the events of the component *)

(** The planner state with the [showDirections] flag. *)
Record ViewState : Type := {
  planner : PlannerState;
  showDirections : bool
}.

(** The directions are rendered when [showDirections && optimizedRoute]. *)
Definition directionsShown (v : ViewState) : bool :=
  showDirections v &&
  match optimizedRoute (planner v) with Some _ => true | None => false end.

(** The component as it is first rendered for [places]: everything is
    selected, the mode is driving, there is no route. *)
Definition initialView (places : list Place.t) : ViewState :=
  {| planner :=
       {| selectedPlaces := places;
          optimizedRoute := None;
          transportMode := "driving-car";
          consoleErrors := [];
          routesGenerated := [] |};
     showDirections := false |}.

Section Handlers.
Context {turf : Turf}.

(** [optimizedRoute] is, all through the handler, the route of the render
    the handler was made in: the route that [generateItinerary] would store
    is not the one tested before the callback. *)
Definition handleSubmitItinerary (userLocation : option Coord)
    (v : ViewState) : ViewState :=
  let st := planner v in
  let st' :=
    match optimizedRoute st with
    | None => generateItinerary userLocation st
    | Some _ => st
    end in
  {| planner :=
       match optimizedRoute st with
       | Some route =>
           {| selectedPlaces := selectedPlaces st';
              optimizedRoute := optimizedRoute st';
              transportMode := transportMode st';
              consoleErrors := consoleErrors st';
              routesGenerated := routesGenerated st' ++ [route] |}
       | None => st'
       end;
     showDirections := true |}.

(** What the user can do in the component. *)
Inductive Event : Type :=
| ClickPlace (place : Place.t)
| SelectAll
| ChooseMode (mode : string)
| ClickGenerate
| ClickOptimize
| ClickSubmit
| ClickBack
| ClickViewDirections.

Definition withPlanner (v : ViewState) (st : PlannerState) : ViewState :=
  {| planner := st; showDirections := showDirections v |}.

(** One event, run to its end. The buttons that are disabled or not rendered
    do nothing. [None] is an ordering loop out of fuel. *)
Definition handleEvent (places : list Place.t) (userLocation : option Coord)
    (fuel : nat) (e : Event) (v : ViewState) : option ViewState :=
  let st := planner v in
  match e with
  | ClickPlace place => Some (withPlanner v (togglePlaceSelection place st))
  | SelectAll =>
      Some (withPlanner v
              {| selectedPlaces := places;
                 optimizedRoute := optimizedRoute st;
                 transportMode := transportMode st;
                 consoleErrors := consoleErrors st;
                 routesGenerated := routesGenerated st |})
  | ChooseMode mode =>
      Some (withPlanner v
              {| selectedPlaces := selectedPlaces st;
                 optimizedRoute := optimizedRoute st;
                 transportMode := mode;
                 consoleErrors := consoleErrors st;
                 routesGenerated := routesGenerated st |})
  | ClickGenerate =>
      match selectedPlaces st with
      | [] => Some v
      | _ :: _ => Some (withPlanner v (generateItinerary userLocation st))
      end
  | ClickOptimize =>
      match selectedPlaces st with
      | [] | [_] => Some v
      | _ :: _ :: _ =>
          match optimizeRoute fuel userLocation st with
          | Some st' => Some (withPlanner v st')
          | None => None
          end
      end
  | ClickSubmit =>
      match selectedPlaces st with
      | [] => Some v
      | _ :: _ => Some (handleSubmitItinerary userLocation v)
      end
  | ClickBack => Some {| planner := st; showDirections := false |}
  | ClickViewDirections =>
      match optimizedRoute st with
      | Some _ => Some {| planner := st; showDirections := true |}
      | None => Some v
      end
  end.

(** A sequence of events, each with the fuel for its ordering loop. *)
Fixpoint handleEvents (places : list Place.t) (userLocation : option Coord)
    (es : list (nat * Event)) (v : ViewState) : option ViewState :=
  match es with
  | [] => Some v
  | (fuel, e) :: es' =>
      match handleEvent places userLocation fuel e v with
      | Some v' => handleEvents places userLocation es' v'
      | None => None
      end
  end.
End Handlers.

(** The local [a] of [calculateDistance]. *)
Definition haversine_a (lat1 lon1 lat2 lon2 : R) : R :=
  let dLat := (lat2 - lat1) * PI / 180 in
  let dLon := (lon2 - lon1) * PI / 180 in
  sin (dLat / 2) * sin (dLat / 2) +
  cos (lat1 * PI / 180) * cos (lat2 * PI / 180) *
  sin (dLon / 2) * sin (dLon / 2).

(** ** formatDistance and formatDuration *)

(** How the host prints a number: in a template literal, and with
    [toFixed(1)]. *)
Class NumberText : Type := {
  Number_toString : R -> string;
  Number_toFixed1 : R -> string
}.

(** The quotient cut towards zero, and [x % y]: [x] minus [y] times that
    quotient of [x / y]. The component divides by 60 only. *)
Definition Ztrunc (x : R) : Z := if Rlt_dec x 0 then Zceil x else Zfloor x.

Definition js_rem (x y : R) : R := x - y * IZR (Ztrunc (x / y)).

Section Formatting.
Context {text : NumberText}.

Definition formatDistance (meters : R) : string :=
  if Rle_dec 1000 meters
  then (Number_toFixed1 (meters / 1000) ++ " km")%string
  else (Number_toString (Math_round meters) ++ " m")%string.

Definition formatDuration (minutes : R) : string :=
  if Rlt_dec minutes 60
  then (Number_toString (Math_round minutes) ++ " min")%string
  else
    let hours := IZR (Math_floor (minutes / 60)) in
    let mins := Math_round (js_rem minutes 60) in
    (Number_toString hours ++ " h " ++ Number_toString mins ++ " min")%string.
End Formatting.

(** A printer to run the two on concrete numbers: the integer part in
    decimal, and for [toFixed(1)] the tenths after a point. *)
Definition decimal (n : Z) : string := NilZero.string_of_int (Z.to_int n).

Definition plainText : NumberText :=
  {| Number_toString := fun x => decimal (Zfloor x);
     Number_toFixed1 := fun x =>
       let n := Zfloor (x * 10 + / 2) in
       (decimal (n / 10) ++ "." ++ decimal (n mod 10))%string |}.

(** ** ItineraryPanel: the itinerary of the day *)

(** The icon components the items carry. *)
Inductive Icon : Type := Coffee | Camera | Utensils | MapPin | Bus.

Module ItineraryItem.
Record t : Type := mk {
  id : Z;
  time : string;
  activity : string;
  duration : string;
  type : string;
  icon : Icon;
  location : option string
}.
End ItineraryItem.

Definition breakfast : ItineraryItem.t :=
  ItineraryItem.mk 1 "08:00 AM" "Breakfast at Local Cafe" "1 hour" "dining"
    Coffee None.

Definition historicalSites : ItineraryItem.t :=
  ItineraryItem.mk 2 "10:00 AM" "Visit Historical Sites" "2 hours"
    "sightseeing" Camera None.

Definition lunch : ItineraryItem.t :=
  ItineraryItem.mk 3 "12:30 PM" "Lunch at Popular Restaurant" "1.5 hours"
    "dining" Utensils None.

Definition marketTour : ItineraryItem.t :=
  ItineraryItem.mk 4 "03:00 PM" "Local Market Tour" "2 hours" "shopping"
    MapPin None.

Definition eveningTour : ItineraryItem.t :=
  ItineraryItem.mk 5 "06:00 PM" "Evening City Tour" "2 hours" "tour" Bus None.

Definition tomorrowBreakfast : ItineraryItem.t :=
  ItineraryItem.mk 1 "Tomorrow 08:00 AM" "Breakfast at Local Cafe" "1 hour"
    "dining" Coffee None.

(** The list the effect builds from [currentTime.getHours()]. *)
Definition dynamicItinerary (hour : Z) : list ItineraryItem.t :=
  let dynamicItinerary := [] in
  let dynamicItinerary :=
    if (hour <=? 10)%Z then dynamicItinerary ++ [breakfast]
    else dynamicItinerary in
  let dynamicItinerary :=
    if (hour <=? 12)%Z then dynamicItinerary ++ [historicalSites]
    else dynamicItinerary in
  let dynamicItinerary :=
    if (hour <=? 15)%Z then dynamicItinerary ++ [lunch]
    else dynamicItinerary in
  let dynamicItinerary :=
    if (hour <=? 18)%Z then dynamicItinerary ++ [marketTour]
    else dynamicItinerary in
  let dynamicItinerary :=
    if (hour <=? 22)%Z then dynamicItinerary ++ [eveningTour]
    else dynamicItinerary in
  let dynamicItinerary :=
    if (hour >=? 22)%Z then [tomorrowBreakfast] else dynamicItinerary in
  dynamicItinerary.

(** The places [fetchNearbyPlaces] returns; nothing in its [try] throws. *)
Definition fetchNearbyPlaces (lat lon : R) : list Place.t :=
  [ Place.mk "1" "Golden Gate Bridge"
      (Some "Iconic suspension bridge with stunning views")
      (Location.mk (lat + 0.02) (lon + 0.03)) (Some 3.2) (Some "Attraction")
      None;
    Place.mk "2" "Local Cafe"
      (Some "Cozy cafe with great coffee and pastries")
      (Location.mk (lat + 0.01) (lon - 0.01)) (Some 1.5) (Some "Dining") None;
    Place.mk "3" "City Museum"
      (Some "Historical museum with local artifacts")
      (Location.mk (lat - 0.01) (lon + 0.02)) (Some 2.1) (Some "Sightseeing")
      None;
    Place.mk "4" "Central Market"
      (Some "Bustling market with local goods")
      (Location.mk (lat - 0.02) (lon - 0.01)) (Some 2.8) (Some "Shopping")
      None;
    Place.mk "5" "Sunset Restaurant"
      (Some "Fine dining with panoramic views")
      (Location.mk (lat + 0.03) (lon + 0.01)) (Some 3.5) (Some "Dining") None;
    Place.mk "6" "City Park"
      (Some "Expansive park with walking trails")
      (Location.mk (lat - 0.01) (lon - 0.03)) (Some 2.3) (Some "Outdoor") None;
    Place.mk "7" "Historic District"
      (Some "Well-preserved historic neighborhood")
      (Location.mk (lat + 0.01) (lon + 0.02)) (Some 1.9) (Some "Sightseeing")
      None ].

(** [String.prototype.toLowerCase], of the host. *)
Class StringCase : Type := { toLowerCase : string -> string }.

(** What [toLowerCase] does to a string of ASCII characters: the letters A
    to Z become a to z. *)
Definition asciiLowerChar (c : Ascii.ascii) : Ascii.ascii :=
  let n := Ascii.nat_of_ascii c in
  if ((65 <=? n) && (n <=? 90))%nat then Ascii.ascii_of_nat (n + 32) else c.

Fixpoint asciiLower (s : string) : string :=
  match s with
  | EmptyString => EmptyString
  | String c s' => String (asciiLowerChar c) (asciiLower s')
  end.

Fixpoint isAscii (s : string) : bool :=
  match s with
  | EmptyString => true
  | String c s' => (Ascii.nat_of_ascii c <? 128)%nat && isAscii s'
  end.

Definition asciiCase : StringCase := {| toLowerCase := asciiLower |}.

(** [hay.includes(needle)]. *)
Definition includes (hay needle : string) : bool :=
  match String.index 0 needle hay with
  | Some _ => true
  | None => false
  end.

Section Panel.
Context {case : StringCase}.

(** [places.find(place =>
      place.category?.toLowerCase().includes(item.type.toLowerCase()))]. *)
Definition matchingPlace (places : list Place.t) (item : ItineraryItem.t)
    : option Place.t :=
  find (fun place =>
          match Place.category place with
          | Some category =>
              includes (toLowerCase category)
                (toLowerCase (ItineraryItem.type item))
          | None => false
          end)
       places.

Definition updatedItinerary (places : list Place.t)
    (dynamicItinerary : list ItineraryItem.t) : list ItineraryItem.t :=
  map (fun item =>
         match matchingPlace places item with
         | Some matchingPlace =>
             {| ItineraryItem.id := ItineraryItem.id item;
                ItineraryItem.time := ItineraryItem.time item;
                ItineraryItem.activity :=
                  (ItineraryItem.activity item ++ " at " ++
                   Place.name matchingPlace)%string;
                ItineraryItem.duration := ItineraryItem.duration item;
                ItineraryItem.type := ItineraryItem.type item;
                ItineraryItem.icon := ItineraryItem.icon item;
                ItineraryItem.location := Place.description matchingPlace |}
         | None => item
         end)
      dynamicItinerary.

(** The itinerary the panel ends up with at [hour]. *)
Definition panelItinerary (hour : Z) (userLocation : option Coord)
    : list ItineraryItem.t :=
  match userLocation with
  | Some userLocation =>
      updatedItinerary
        (fetchNearbyPlaces (fst userLocation) (snd userLocation))
        (dynamicItinerary hour)
  | None => dynamicItinerary hour
  end.
End Panel.

(** The component with the three stops to the north selected, farthest
    first, and the mode it starts with. *)
Definition northState : PlannerState :=
  {| selectedPlaces := [north3; north1; north2];
     optimizedRoute := None;
     transportMode := "driving-car";
     consoleErrors := [];
     routesGenerated := [] |}.

(** ** The ordering on the doubles of the engine

    The numbers of the engine are binary64 doubles. The embedding above
    computes with real numbers; where a result depends on rounding or on
    NaN the loops are embedded again on doubles: [+], [-], [*], [/], [<]
    and [Math.sqrt] are the IEEE operations, and [Math.sin], [Math.cos] and
    [Math.atan2], which the language leaves to the host, are an interface. *)

Class Math64 : Type := {
  Math_sin64 : float -> float;
  Math_cos64 : float -> float;
  Math_atan2_64 : float -> float -> float
}.

(** [Math.PI], the double nearest to the number. *)
Definition Math_PI64 : float := 0x1.921fb54442d18p+1%float.

Module Location64.
Record t : Type := mk { lat : float; lon : float }.
End Location64.

Module Place64.
Record t : Type := mk {
  id : string;
  name : string;
  description : option string;
  location : Location64.t;
  distance : option float;
  category : option string;
  image : option string
}.
End Place64.

Section Doubles.
Context {math : Math64}.

Definition calculateDistance64 (lat1 lon1 lat2 lon2 : float) : float :=
  let R_earth := 6371%float in
  let dLat := ((lat2 - lat1) * Math_PI64 / 180)%float in
  let dLon := ((lon2 - lon1) * Math_PI64 / 180)%float in
  let a :=
    (Math_sin64 (dLat / 2) * Math_sin64 (dLat / 2) +
     Math_cos64 (lat1 * Math_PI64 / 180) * Math_cos64 (lat2 * Math_PI64 / 180) *
     Math_sin64 (dLon / 2) * Math_sin64 (dLon / 2))%float in
  let c :=
    (2 * Math_atan2_64 (PrimFloat.sqrt a) (PrimFloat.sqrt (1 - a)))%float in
  (R_earth * c)%float.

Definition distanceTo64 (currentPoint : Location64.t) (p : Place64.t) : float :=
  calculateDistance64
    (Location64.lat currentPoint) (Location64.lon currentPoint)
    (Location64.lat (Place64.location p)) (Location64.lon (Place64.location p)).

(** The scan of [closestScan], with the [<] of the doubles: false when a
    side is NaN. *)
Fixpoint closestScan64 (currentPoint : Location64.t) (i : nat)
    (rest : list Place64.t) (closestIdx : nat) (closestDistance : float)
    : nat * float :=
  match rest with
  | [] => (closestIdx, closestDistance)
  | p :: rest' =>
      let distance := distanceTo64 currentPoint p in
      if PrimFloat.ltb distance closestDistance
      then closestScan64 currentPoint (S i) rest' i distance
      else closestScan64 currentPoint (S i) rest' closestIdx closestDistance
  end.

Definition closestIdx64 (currentPoint : Location64.t) (first : Place64.t)
    (others : list Place64.t) : nat :=
  fst (closestScan64 currentPoint 1 others 0 (distanceTo64 currentPoint first)).

(** The loop of [orderLoop], on doubles. *)
Fixpoint orderLoop64 (fuel : nat) (currentPoint : Location64.t)
    (remainingPlaces orderedPlaces : list Place64.t)
    : option (Completion (list Place64.t)) :=
  match remainingPlaces with
  | [] => Some (Normal orderedPlaces)
  | first :: others =>
      match fuel with
      | O => None
      | S fuel' =>
          let closestIdx := closestIdx64 currentPoint first others in
          match nth_error remainingPlaces closestIdx with
          | None =>
              Some (Throw (TypeError
                "Cannot read properties of undefined (reading 'location')"))
          | Some nextPlace =>
              let orderedPlaces := orderedPlaces ++ [nextPlace] in
              let currentPoint :=
                Location64.mk (Location64.lat (Place64.location nextPlace))
                              (Location64.lon (Place64.location nextPlace)) in
              let remainingPlaces :=
                filter_index (fun idx => negb (Nat.eqb idx closestIdx)) 0
                  remainingPlaces in
              orderLoop64 fuel' currentPoint remainingPlaces orderedPlaces
          end
      end
  end.

Definition orderedPlaces64 (fuel : nat) (userLocation : float * float)
    (selectedPlaces : list Place64.t)
    : option (Completion (list Place64.t)) :=
  let startPoint := Location64.mk (fst userLocation) (snd userLocation) in
  orderLoop64 fuel startPoint selectedPlaces [].
End Doubles.

(** ** A stop at the antipode of the user

    The user at (12, 0), the selection P (-12, 180), the antipode, and
    Q (13, 0), one degree to the north. *)

Definition antipode : Place.t := placeAt "P" (-12) 180.
Definition near : Place.t := placeAt "Q" 13 0.

Definition placeAt64 (ident : string) (lat lon : float) : Place64.t :=
  {| Place64.id := ident; Place64.name := ident; Place64.description := None;
     Place64.location := Location64.mk lat lon;
     Place64.distance := None; Place64.category := None;
     Place64.image := None |}.

Definition antipode64 : Place64.t := placeAt64 "P" (-12)%float 180%float.
Definition near64 : Place64.t := placeAt64 "Q" 13%float 0%float.

(** The sine and cosine of 12 degrees and of a right angle, as doubles, at
    the arguments [calculateDistance64] reaches from (12, 0) to (-12, 180);
    [atan2] of a NaN is NaN. Enough of a host to run that one distance. *)
Definition antipodeMath : Math64 :=
  {| Math_sin64 := fun x =>
       if PrimFloat.eqb x (-0x1.acee9f37bebd5p-3)%float
       then (-0x1.a9cd9ac4258f5p-3)%float
       else if PrimFloat.eqb x 0x1.921fb54442d18p+0%float then 1%float
       else 0%float;
     Math_cos64 := fun x =>
       if PrimFloat.eqb (PrimFloat.abs x) 0x1.acee9f37bebd5p-3%float
       then 0x1.f4cfc327a008p-1%float
       else 1%float;
     Math_atan2_64 := fun y x =>
       if PrimFloat.is_nan x then nan else 0%float |}.

(** * Properties *)

(** ** Lists: filtering one index out *)

Section IndexFilter.
Context {A : Type}.

Lemma filter_index_keep_all (keep : nat -> bool) (start : nat) (l : list A) :
  (forall idx, (start <= idx)%nat -> keep idx = true) ->
  filter_index keep start l = l.
Proof.
  revert start; induction l as [|x l IH]; intros start Hkeep; simpl.
  - reflexivity.
  - rewrite (Hkeep start) by lia. f_equal. apply IH.
    intros idx Hle. apply Hkeep. lia.
Qed.

Lemma filter_index_removeAt (k off : nat) (l : list A) :
  filter_index (fun idx => negb (Nat.eqb idx (off + k))) off l = removeAt k l.
Proof.
  revert k off; induction l as [|x l IH]; intros k off.
  - unfold removeAt. now rewrite firstn_nil, skipn_nil.
  - destruct k as [|k]; simpl.
    + rewrite Nat.add_0_r, Nat.eqb_refl. simpl.
      apply filter_index_keep_all.
      intros idx Hle. apply negb_true_iff, Nat.eqb_neq. lia.
    + replace (Nat.eqb off (off + S k)) with false
        by (symmetry; apply Nat.eqb_neq; lia).
      simpl. unfold removeAt. simpl. f_equal.
      replace (off + S k)%nat with (S off + k)%nat by lia.
      apply IH.
Qed.

Lemma removeAt_split (k : nat) (l : list A) (x : A) :
  nth_error l k = Some x ->
  exists l1 l2, l = l1 ++ x :: l2 /\ length l1 = k /\ removeAt k l = l1 ++ l2.
Proof.
  intros Hnth. destruct (nth_error_split l k Hnth) as (l1 & l2 & -> & Hlen).
  exists l1, l2. repeat split; trivial.
  unfold removeAt. subst k.
  rewrite firstn_app, firstn_all, Nat.sub_diag, firstn_O, app_nil_r.
  replace (S (length l1)) with (length l1 + 1)%nat by lia.
  rewrite skipn_app, skipn_all2 by lia.
  replace (length l1 + 1 - length l1)%nat with 1%nat by lia.
  reflexivity.
Qed.

Lemma removeAt_length (k : nat) (l : list A) (x : A) :
  nth_error l k = Some x -> S (length (removeAt k l)) = length l.
Proof.
  intros Hnth. destruct (removeAt_split k l x Hnth) as (l1 & l2 & -> & _ & ->).
  rewrite !length_app. simpl. lia.
Qed.

Lemma removeAt_Permutation (k : nat) (l : list A) (x : A) :
  nth_error l k = Some x -> Permutation l (x :: removeAt k l).
Proof.
  intros Hnth. destruct (removeAt_split k l x Hnth) as (l1 & l2 & -> & _ & ->).
  symmetry. apply Permutation_middle.
Qed.

End IndexFilter.

(** ** The scan for the closest place *)

Lemma Location_eta (l : Location.t) :
  Location.mk (Location.lat l) (Location.lon l) = l.
Proof. now destruct l. Qed.

Lemma closestScan_champion currentPoint rest :
  forall seen k d,
    champion currentPoint seen k d ->
    champion currentPoint (seen ++ rest)
      (fst (closestScan currentPoint (length seen) rest k d))
      (snd (closestScan currentPoint (length seen) rest k d)).
Proof.
  induction rest as [|q rest IH]; intros seen k d Hch; simpl.
  - now rewrite app_nil_r.
  - replace (seen ++ q :: rest) with ((seen ++ [q]) ++ rest)
      by now rewrite <- app_assoc.
    replace (S (length seen)) with (length (seen ++ [q]))
      by (rewrite length_app; simpl; lia).
    destruct Hch as (p & (Hnth & Hmin & Hfirst) & ->).
    assert (Hk : (k < length seen)%nat)
      by (apply nth_error_Some; congruence).
    destruct (Rlt_dec (distanceTo currentPoint q) (distanceTo currentPoint p))
      as [Hlt|Hge]; apply IH.
    + replace (length (seen ++ [q])) with (S (length seen))
        by (rewrite length_app; simpl; lia).
      exists q. split; [|reflexivity]. repeat split.
      * rewrite nth_error_app2, Nat.sub_diag by lia. reflexivity.
      * intros j r Hj.
        destruct (Nat.lt_ge_cases j (length seen)) as [Hin|Hout].
        -- rewrite nth_error_app1 in Hj by trivial.
           specialize (Hmin j r Hj). lra.
        -- rewrite nth_error_app2 in Hj by trivial.
           destruct (j - length seen)%nat as [|n]; simpl in Hj.
           ++ injection Hj as <-. lra.
           ++ now destruct n.
      * intros j r Hj Hr. rewrite nth_error_app1 in Hr by lia.
        specialize (Hmin j r Hr). lra.
    + exists p. split; [|reflexivity]. repeat split.
      * rewrite nth_error_app1 by trivial. exact Hnth.
      * intros j r Hj.
        destruct (Nat.lt_ge_cases j (length seen)) as [Hin|Hout].
        -- rewrite nth_error_app1 in Hj by trivial. now apply (Hmin j).
        -- rewrite nth_error_app2 in Hj by trivial.
           destruct (j - length seen)%nat as [|n]; simpl in Hj.
           ++ injection Hj as <-. lra.
           ++ now destruct n.
      * intros j r Hj Hr. rewrite nth_error_app1 in Hr by lia.
        now apply (Hfirst j).
Qed.

Lemma closestIdx_nearest currentPoint first others :
  exists p,
    nearestAt currentPoint (first :: others)
      (closestIdx currentPoint first others) p.
Proof.
  destruct (closestScan_champion currentPoint others [first] 0%nat
              (distanceTo currentPoint first)) as (p & Hnear & _).
  - exists first. split; [|reflexivity]. repeat split.
    + intros [|[|j]] q Hq; simpl in Hq; try discriminate.
      injection Hq as <-. lra.
    + intros j q Hj. lia.
  - exists p. exact Hnear.
Qed.

Lemma closestIdx_in_bounds currentPoint first others :
  (closestIdx currentPoint first others < length (first :: others))%nat.
Proof.
  destruct (closestIdx_nearest currentPoint first others) as (p & Hnth & _).
  apply nth_error_Some. congruence.
Qed.

Lemma nearestAt_unique currentPoint pool k1 p1 k2 p2 :
  nearestAt currentPoint pool k1 p1 ->
  nearestAt currentPoint pool k2 p2 ->
  k1 = k2 /\ p1 = p2.
Proof.
  intros (Hn1 & Hmin1 & Hfirst1) (Hn2 & Hmin2 & Hfirst2).
  assert (Hk : k1 = k2).
  { destruct (Nat.lt_trichotomy k1 k2) as [Hlt|[Heq|Hgt]]; trivial.
    - specialize (Hfirst2 k1 p1 Hlt Hn1). specialize (Hmin1 k2 p2 Hn2). lra.
    - specialize (Hfirst1 k2 p2 Hgt Hn2). specialize (Hmin2 k1 p1 Hn1). lra. }
  split; [exact Hk|]. subst k2. congruence.
Qed.

(** ** The greedy loop *)

Lemma orderLoop_step fuel currentPoint first others ordered p :
  nth_error (first :: others) (closestIdx currentPoint first others) = Some p ->
  orderLoop (S fuel) currentPoint (first :: others) ordered =
  orderLoop fuel (Place.location p)
    (removeAt (closestIdx currentPoint first others) (first :: others))
    (ordered ++ [p]).
Proof.
  intros Hnth.
  change (orderLoop (S fuel) currentPoint (first :: others) ordered)
    with (match nth_error (first :: others)
                  (closestIdx currentPoint first others) with
          | None =>
              Some (Throw (TypeError
                "Cannot read properties of undefined (reading 'location')"))
          | Some nextPlace =>
              orderLoop fuel
                (Location.mk (Location.lat (Place.location nextPlace))
                             (Location.lon (Place.location nextPlace)))
                (filter_index
                   (fun idx =>
                      negb (Nat.eqb idx (closestIdx currentPoint first others)))
                   0 (first :: others))
                (ordered ++ [nextPlace])
          end).
  rewrite Hnth, Location_eta.
  now rewrite (filter_index_removeAt (closestIdx currentPoint first others) 0).
Qed.

Lemma orderLoop_greedy (n : nat) :
  forall pool, length pool = n ->
  forall extra currentPoint ordered,
  exists tour,
    orderLoop (n + extra) currentPoint pool ordered
      = Some (Normal (ordered ++ tour)) /\
    GreedyTour currentPoint pool tour.
Proof.
  induction n as [|n IH]; intros pool Hlen extra currentPoint ordered.
  - destruct pool; [|discriminate]. exists []. split.
    + destruct extra; simpl; now rewrite app_nil_r.
    + constructor.
  - destruct pool as [|first others]; [discriminate|].
    destruct (closestIdx_nearest currentPoint first others) as (p & Hnear).
    pose proof Hnear as (Hnth & _).
    assert (Hrest : length
              (removeAt (closestIdx currentPoint first others) (first :: others))
            = n).
    { pose proof (removeAt_length _ _ _ Hnth) as Hl. simpl in Hlen, Hl. lia. }
    destruct (IH _ Hrest extra (Place.location p) (ordered ++ [p]))
      as (tour & Hrun & Htour).
    exists (p :: tour). split.
    + change (S n + extra)%nat with (S (n + extra)).
      rewrite (orderLoop_step _ _ _ _ _ p Hnth), Hrun.
      now rewrite <- app_assoc.
    + econstructor; eassumption.
Qed.

Lemma GreedyTour_Permutation currentPoint pool tour :
  GreedyTour currentPoint pool tour -> Permutation pool tour.
Proof.
  induction 1 as [|currentPoint pool k p tour (Hnth & _) _ IH].
  - constructor.
  - rewrite (removeAt_Permutation k pool p Hnth). now constructor.
Qed.

Lemma GreedyTour_deterministic currentPoint pool tour1 :
  GreedyTour currentPoint pool tour1 ->
  forall tour2, GreedyTour currentPoint pool tour2 -> tour1 = tour2.
Proof.
  induction 1 as [|currentPoint pool k p tour Hnear _ IH]; intros tour2 H2.
  - inversion H2 as [|? ? k2 p2 ? (Hnth & _)]; subst; trivial.
    now destruct k2.
  - inversion H2 as [|? ? k2 p2 tour' Hnear2 Hrest]; subst.
    + destruct Hnear as (Hnth & _). now destruct k.
    + destruct (nearestAt_unique _ _ _ _ _ _ Hnear Hnear2) as (-> & ->).
      f_equal. now apply IH.
Qed.

Lemma orderedPlaces_greedy userLocation selectedPlaces :
  exists tour,
    orderedPlaces (length selectedPlaces) userLocation selectedPlaces
      = Some (Normal tour) /\
    GreedyTour (Location.mk (fst userLocation) (snd userLocation))
      selectedPlaces tour.
Proof.
  destruct (orderLoop_greedy (length selectedPlaces) selectedPlaces eq_refl 0
              (Location.mk (fst userLocation) (snd userLocation)) [])
    as (tour & Hrun & Htour).
  rewrite Nat.add_0_r in Hrun. exists tour. split; assumption.
Qed.

(** C4. For every origin and every finite list of stops, the greedy
    reordering of [optimizeRoute] returns a permutation of the stops: the
    identifiers form the same multiset (every identifier occurs as often in
    the output as in the input, so none is duplicated and none is left out),
    and the length is the same. *)
Theorem orderedPlaces_permutation (userLocation : Coord)
    (selectedPlaces : list Place.t) :
  exists tour,
    orderedPlaces (length selectedPlaces) userLocation selectedPlaces
      = Some (Normal tour) /\
    Permutation selectedPlaces tour /\
    Permutation (map Place.id selectedPlaces) (map Place.id tour) /\
    (forall ident,
       count_occ string_dec (map Place.id tour) ident =
       count_occ string_dec (map Place.id selectedPlaces) ident) /\
    length tour = length selectedPlaces.
Proof.
  destruct (orderedPlaces_greedy userLocation selectedPlaces)
    as (tour & Hrun & Htour).
  apply GreedyTour_Permutation in Htour.
  exists tour. repeat split.
  - exact Hrun.
  - exact Htour.
  - now apply Permutation_map.
  - intros ident. symmetry.
    apply (Permutation_count_occ string_dec). now apply Permutation_map.
  - symmetry. now apply Permutation_length.
Qed.

(** In exact arithmetic the output of the ordering is the greedy tour: each
    element appended is a remaining stop at minimum distance from the current
    position, the first such stop in pool order on a tie. On doubles a
    distance can be NaN and this fails: [orderedPlaces64_antipode_first]. *)
Lemma orderedPlaces_nearest_first (userLocation : Coord)
    (selectedPlaces : list Place.t) :
  let origin := Location.mk (fst userLocation) (snd userLocation) in
  exists tour,
    orderedPlaces (length selectedPlaces) userLocation selectedPlaces
      = Some (Normal tour) /\
    GreedyTour origin selectedPlaces tour /\
    match selectedPlaces with
    | [] => tour = []
    | first :: others =>
        exists p rest,
          tour = p :: rest /\
          nearestAt origin selectedPlaces (closestIdx origin first others) p
    end.
Proof.
  intros origin.
  destruct (orderedPlaces_greedy userLocation selectedPlaces)
    as (tour & Hrun & Htour).
  exists tour. repeat split; trivial.
  fold origin in Htour.
  destruct selectedPlaces as [|first others].
  - inversion Htour as [|? ? k q rest (Hnth & _)]; subst; trivial.
    now destruct k.
  - destruct (closestIdx_nearest origin first others) as (p & Hnear).
    inversion Htour as [|? ? k q rest Hq Hrest]; subst.
    destruct (nearestAt_unique _ _ _ _ _ _ Hnear Hq) as (_ & ->).
    now exists q, rest.
Qed.

(** C10. The greedy loop of [optimizeRoute] terminates on every finite
    selection: in each iteration [closestIdx] is within the bounds of the
    pool and the filter takes exactly one element out, and with one unit of
    fuel per pool member the loop runs to its end and returns. *)
Theorem orderLoop_terminates :
  (forall currentPoint first others,
     let pool := first :: others in
     let k := closestIdx currentPoint first others in
     (k < length pool)%nat /\
     S (length (filter_index (fun idx => negb (Nat.eqb idx k)) 0 pool))
       = length pool) /\
  (forall currentPoint remainingPlaces ordered extra,
     exists tour,
       orderLoop (length remainingPlaces + extra) currentPoint
         remainingPlaces ordered = Some (Normal tour)).
Proof.
  split.
  - intros currentPoint first others pool k.
    pose proof (closestIdx_in_bounds currentPoint first others) as Hk.
    split; [exact Hk|].
    destruct (nth_error pool k) as [p|] eqn:Hnth.
    + rewrite (filter_index_removeAt k 0). now apply removeAt_length with p.
    + apply nth_error_None in Hnth. fold pool k in Hk. lia.
  - intros currentPoint remainingPlaces ordered extra.
    destruct (orderLoop_greedy (length remainingPlaces) remainingPlaces eq_refl
                extra currentPoint ordered) as (tour & Hrun & _).
    now exists (ordered ++ tour).
Qed.

(** ** Rounding at zero *)

Lemma Math_round_0 : Math_round 0 = 0.
Proof.
  unfold Math_round. rewrite (Zfloor_eq 0); [reflexivity|]. simpl. lra.
Qed.

Lemma toFixed1_0 : toFixed1 0 = 0.
Proof.
  unfold toFixed1. rewrite Rabs_R0.
  assert (Hbig : 0 < 10 ^ 21) by (apply pow_lt; lra).
  destruct (Rle_dec (10 ^ 21) 0) as [Hle|_]; [lra|].
  destruct (Rlt_dec 0 0) as [Hlt|_]; [lra|].
  rewrite (Zfloor_eq 0); [lra|]. simpl. lra.
Qed.

(** ** The travel modes *)

Lemma modeSpeed_driving : modeSpeed "driving-car" = 40.
Proof. reflexivity. Qed.

Lemma modeSpeed_walking : modeSpeed "foot-walking" = 5.
Proof. reflexivity. Qed.

Lemma modeSpeed_unknown (mode : string) :
  ~ In mode travelModes -> modeSpeed mode = 40.
Proof.
  intros Hout. unfold modeSpeed.
  destruct (String.eqb_spec mode "cycling-regular") as [->|_].
  - exfalso. apply Hout. simpl. auto.
  - destruct (String.eqb_spec mode "foot-walking") as [->|_]; trivial.
    exfalso. apply Hout. simpl. auto.
Qed.

(** ** The synthesizer *)

Section SynthesizerFacts.
Context {turf : Turf}.

Lemma routeLeg_throws acc i from to mode :
  routeLeg acc i from to mode =
  Throw (TypeError "steps.push is not a function").
Proof. reflexivity. Qed.

Lemma routeLoop_short i points acc mode :
  (length points < 2)%nat -> routeLoop i points acc mode = Normal acc.
Proof.
  destruct points as [|p [|q rest]]; simpl; trivial. lia.
Qed.

Lemma generateRoute_throws_only_TypeError points mode e :
  generateRoute points mode = Throw e ->
  e = TypeError "steps.push is not a function".
Proof.
  unfold generateRoute.
  destruct points as [|p [|q rest]]; simpl; try discriminate.
  now intros [= <-].
Qed.

Lemma generateRoute_returns_only_short points mode route :
  generateRoute points mode = Normal route ->
  (length points < 2)%nat /\ route = Route.mk 0 0 [] [].
Proof.
  unfold generateRoute.
  destruct points as [|p [|q rest]]; simpl; try discriminate;
    intros [= <-]; (split; [lia|]); now rewrite toFixed1_0, Math_round_0.
Qed.

Lemma generateRoute_short points mode :
  (length points < 2)%nat ->
  generateRoute points mode = Normal (Route.mk 0 0 [] []).
Proof.
  intros Hshort. unfold generateRoute.
  rewrite (routeLoop_short 0 points emptyAcc mode Hshort). simpl.
  now rewrite toFixed1_0, Math_round_0.
Qed.

(** C7. For every input sequence with fewer than two points (empty, or the
    origin only), [generateRoute] returns a Route with no steps, total
    distance 0, total duration 0 and no coordinates; it does not fail. *)
Theorem generateRoute_fewer_than_two (points : list Place.t) (mode : string) :
  (length points < 2)%nat ->
  generateRoute points mode =
  Normal {| Route.duration := 0; Route.distance := 0;
            Route.steps := []; Route.coordinates := [] |}.
Proof.
  intros Hshort. unfold generateRoute.
  destruct points as [|origin [|stop rest]]; simpl in *; try lia;
    now rewrite toFixed1_0, Math_round_0.
Qed.

(** C1. On every input sequence of two or more points, whatever the mode,
    [generateRoute] throws in its first iteration, at [steps.push]: the name
    [steps] is there the sample count of the loop body, not the array of
    route steps. No Route is returned, so none with n - 1 steps. *)
Theorem generateRoute_two_or_more_throws (points : list Place.t)
    (mode : string) :
  (2 <= length points)%nat ->
  generateRoute points mode =
  Throw (TypeError "steps.push is not a function").
Proof.
  intros Hlong. destruct points as [|origin [|stop rest]]; simpl in Hlong.
  - lia.
  - lia.
  - unfold generateRoute. cbn [routeLoop]. now rewrite routeLeg_throws.
Qed.

(** C6. From a sequence of two or more points the loop of [generateRoute]
    does not get past its first leg: the segment of that leg is computed
    and appended, and the [steps.push] after it throws, so the coordinates
    never reach a Route. *)
Theorem routeLoop_stops_at_first_leg (p1 p2 : Place.t) (rest : list Place.t)
    (mode : string) :
  routeLoop 0 (p1 :: p2 :: rest) emptyAcc mode =
  Throw (TypeError "steps.push is not a function") /\
  forall route, generateRoute (p1 :: p2 :: rest) mode <> Normal route.
Proof.
  split; [reflexivity|]. intros route. discriminate.
Qed.

End SynthesizerFacts.

Section SamplerFacts.
Context {turf : Turf}.

Lemma sampleSteps_at_least_5 lineDistance : (5 <= sampleSteps lineDistance)%Z.
Proof. unfold sampleSteps. apply Z.le_max_l. Qed.

Lemma segmentCoordinates_length a b :
  length (segmentCoordinates a b) =
  S (Z.to_nat (sampleSteps (turf_length (lineString [a; b])))).
Proof. unfold segmentCoordinates. now rewrite length_map, length_seq. Qed.

Lemma segmentCoordinates_nth a b j :
  (j <= Z.to_nat (sampleSteps (turf_length (lineString [a; b]))))%nat ->
  nth_error (segmentCoordinates a b) j =
  Some (turf_along (lineString [a; b])
          (turf_length (lineString [a; b]) *
           (INR j / IZR (sampleSteps (turf_length (lineString [a; b])))))).
Proof.
  intros Hj. unfold segmentCoordinates.
  rewrite nth_error_map, nth_error_seq.
  destruct (Nat.ltb_spec j
              (S (Z.to_nat (sampleSteps (turf_length (lineString [a; b]))))))
    as [_|Hout]; [reflexivity|lia].
Qed.

(** C8. For every pair of endpoint coordinates a and b, with
    [steps = max(5, floor(lineDistance / 0.5))], the sampler produces the
    [steps + 1] points at the fractions [j / steps] of the line, for j from
    0 to [steps]: at least 5 of them however short the segment. With a
    [turf.along] that gives the start of a line at distance 0 and its end at
    the length of the line, the first sample is a and the last is b. *)
Theorem segmentCoordinates_samples (a b : Coord) :
  let line := lineString [a; b] in
  let lineDistance := turf_length line in
  let steps := Z.max 5 (Zfloor (lineDistance / 0.5)) in
  turf_along line 0 = a ->
  turf_along line lineDistance = b ->
  length (segmentCoordinates a b) = S (Z.to_nat steps) /\
  (5 <= length (segmentCoordinates a b))%nat /\
  (forall j, (j <= Z.to_nat steps)%nat ->
     nth_error (segmentCoordinates a b) j =
     Some (turf_along line (lineDistance * (INR j / IZR steps)))) /\
  hd_error (segmentCoordinates a b) = Some a /\
  (forall d, last (segmentCoordinates a b) d = b).
Proof.
  intros line lineDistance steps Hstart Hend.
  assert (Hsteps : steps = sampleSteps lineDistance) by reflexivity.
  assert (H5 : (5 <= steps)%Z)
    by (rewrite Hsteps; apply sampleSteps_at_least_5).
  assert (Hlen : length (segmentCoordinates a b) = S (Z.to_nat steps))
    by apply segmentCoordinates_length.
  repeat split.
  - exact Hlen.
  - rewrite Hlen. lia.
  - intros j Hj. now apply segmentCoordinates_nth.
  - unfold segmentCoordinates. simpl. f_equal.
    fold line lineDistance. rewrite <- Hstart. f_equal.
    unfold Rdiv. now rewrite !Rmult_0_l, Rmult_0_r.
  - intros d. unfold segmentCoordinates.
    fold line lineDistance. rewrite <- Hsteps.
    rewrite seq_S, map_app. simpl. rewrite last_last.
    transitivity (turf_along line lineDistance); [f_equal|exact Hend].
    rewrite INR_IZR_INZ, Z2Nat.id by lia.
    assert (Hnz : IZR steps <> 0).
    { apply not_0_IZR. lia. }
    unfold Rdiv. rewrite Rinv_r by exact Hnz. apply Rmult_1_r.
Qed.

End SamplerFacts.

Section ModeFacts.
Context {turf : Turf}.

(** ** The callers: no route reaches the state of the component *)

Lemma routeInto_logs_TypeError st userLocation first others :
  routeInto st userLocation (first :: others) =
  {| selectedPlaces := selectedPlaces st;
     optimizedRoute := optimizedRoute st;
     transportMode := transportMode st;
     consoleErrors :=
       consoleErrors st ++ [TypeError "steps.push is not a function"];
     routesGenerated := routesGenerated st |}.
Proof. reflexivity. Qed.

Lemma generateItinerary_keeps_route userLocation st :
  optimizedRoute (generateItinerary userLocation st) = optimizedRoute st /\
  routesGenerated (generateItinerary userLocation st) = routesGenerated st.
Proof.
  unfold generateItinerary.
  destruct userLocation as [userLocation|], (selectedPlaces st) as [|p ps];
    split; reflexivity.
Qed.

Lemma optimizeRoute_reorders_without_route userLocation st :
  exists tour,
    optimizeRoute (length (selectedPlaces st)) userLocation st =
    Some {| selectedPlaces := tour;
            optimizedRoute := optimizedRoute st;
            transportMode := transportMode st;
            consoleErrors :=
              match userLocation, selectedPlaces st with
              | Some _, _ :: _ =>
                  consoleErrors st ++ [TypeError "steps.push is not a function"]
              | _, _ => consoleErrors st
              end;
            routesGenerated := routesGenerated st |} /\
    Permutation (selectedPlaces st) tour.
Proof.
  unfold optimizeRoute.
  destruct userLocation as [userLocation|].
  - destruct (selectedPlaces st) as [|p ps] eqn:Hsel.
    + exists []. split; [|constructor].
      destruct st; simpl in *; now subst.
    + destruct (orderedPlaces_greedy userLocation (p :: ps))
        as (tour & Hrun & Htour).
      apply GreedyTour_Permutation in Htour.
      exists tour. split; [|exact Htour]. rewrite Hrun.
      destruct tour as [|q tour].
      * symmetry in Htour. now apply Permutation_nil in Htour.
      * now rewrite routeInto_logs_TypeError.
  - exists (selectedPlaces st). split; [|reflexivity]. now destruct st.
Qed.

(** C2. On the scenario of the specification (origin, stops A and B,
    walking) [generateRoute] does not return: it throws a TypeError at
    [steps.push] in the first iteration. [generateItinerary] catches it: the
    component is left without a route, with the error on the console. *)
Theorem generateRoute_throws_on_scenario :
  generateRoute [userPoint scenarioOrigin; stopA; stopB] "foot-walking" =
  Throw (TypeError "steps.push is not a function") /\
  generateItinerary (Some scenarioOrigin) scenarioState =
  {| selectedPlaces := [stopA; stopB];
     optimizedRoute := None;
     transportMode := "foot-walking";
     consoleErrors := [TypeError "steps.push is not a function"];
     routesGenerated := [] |}.
Proof.
  split.
  - unfold generateRoute. cbn [routeLoop]. now rewrite routeLeg_throws.
  - unfold generateItinerary, scenarioState. cbn [selectedPlaces].
    now rewrite routeInto_logs_TypeError.
Qed.

(** C3 (as amended). For every travel-mode value outside the three modes
    of the component, the duration computation raises no [InvalidMode]
    error: the speed stays at the 40 km/h of driving, every leg gets the
    duration it has under driving, and no error that [generateRoute] throws
    has the name InvalidMode. *)
Theorem unknown_mode_uses_driving_speed (mode : string) :
  ~ In mode travelModes ->
  modeSpeed mode = 40 /\
  (forall distance,
     legDuration distance mode = legDuration distance "driving-car") /\
  (forall points e,
     generateRoute points mode = Throw e -> error_name e <> "InvalidMode").
Proof.
  intros Hout. pose proof (modeSpeed_unknown mode Hout) as Hspeed.
  repeat split.
  - exact Hspeed.
  - intros distance. unfold legDuration.
    now rewrite Hspeed, modeSpeed_driving.
  - intros points e Hthrow.
    rewrite (generateRoute_throws_only_TypeError points mode e Hthrow).
    discriminate.
Qed.

(** C9. On every input sequence of two or more points [generateRoute]
    throws under driving and under walking alike, at the [steps.push] of the
    first iteration: there are no two Routes whose durations and distances
    could be compared. *)
Theorem generateRoute_throws_in_both_modes (points : list Place.t) :
  (2 <= length points)%nat ->
  generateRoute points "driving-car" =
    Throw (TypeError "steps.push is not a function") /\
  generateRoute points "foot-walking" =
    Throw (TypeError "steps.push is not a function") /\
  ~ (exists driving walking,
       generateRoute points "driving-car" = Normal driving /\
       generateRoute points "foot-walking" = Normal walking).
Proof.
  intros Hlong.
  assert (Hthrow : forall mode,
    generateRoute points mode =
    Throw (TypeError "steps.push is not a function")).
  { intros mode. destruct points as [|origin [|stop rest]]; simpl in Hlong.
    - lia.
    - lia.
    - unfold generateRoute. cbn [routeLoop]. now rewrite routeLeg_throws. }
  repeat split; try apply Hthrow.
  intros (driving & walking & Hdriving & _).
  rewrite Hthrow in Hdriving. discriminate.
Qed.

End ModeFacts.

(** ** The theorems at concrete inputs *)

Lemma generateRoute_two_or_more_throws_witness :
  generateRoute (turf := chordTurf) [userPoint scenarioOrigin; stopA]
    "driving-car" =
  Throw (TypeError "steps.push is not a function").
Proof.
  apply (generateRoute_two_or_more_throws (turf := chordTurf)). simpl. lia.
Defined.

Lemma generateRoute_fewer_than_two_witness :
  generateRoute (turf := chordTurf) [userPoint scenarioOrigin] "foot-walking" =
  Normal {| Route.duration := 0; Route.distance := 0;
            Route.steps := []; Route.coordinates := [] |}.
Proof.
  apply (generateRoute_fewer_than_two (turf := chordTurf)). simpl. lia.
Defined.

Lemma flying_is_no_travel_mode : ~ In "flying" travelModes.
Proof. simpl. intros [H|[H|[H|[]]]]; discriminate H. Qed.

Lemma unknown_mode_uses_driving_speed_witness :
  modeSpeed "flying" = 40 /\
  (forall distance,
     legDuration distance "flying" = legDuration distance "driving-car") /\
  (forall points e,
     generateRoute (turf := chordTurf) points "flying" = Throw e ->
     error_name e <> "InvalidMode").
Proof.
  apply (unknown_mode_uses_driving_speed (turf := chordTurf) "flying").
  simpl. intros [H|[H|[H|[]]]]; discriminate H.
Defined.

(** C3, as stated, fails at the mode "flying": it is none of the three
    modes, its speed is the 40 km/h of driving, and [generateRoute] neither
    on the origin alone nor on the origin and a stop ends in an error named
    InvalidMode. *)
Lemma unknown_mode_is_not_rejected :
  ~ In "flying" travelModes /\
  modeSpeed "flying" = modeSpeed "driving-car" /\
  ~ rejectsWithInvalidMode
      (generateRoute (turf := chordTurf) [userPoint scenarioOrigin] "flying") /\
  ~ rejectsWithInvalidMode
      (generateRoute (turf := chordTurf) [userPoint scenarioOrigin; stopA]
         "flying").
Proof.
  split; [exact flying_is_no_travel_mode|]. split; [reflexivity|].
  split; intros (e & Hthrow & Hname).
  - rewrite generateRoute_short in Hthrow by (simpl; lia). discriminate.
  - apply generateRoute_throws_only_TypeError in Hthrow. subst e.
    discriminate.
Qed.

Lemma chord_along_start a b : chord_along (lineString [a; b]) 0 = a.
Proof.
  destruct a as [a1 a2]. unfold chord_along. simpl. f_equal; lra.
Qed.

Lemma segmentCoordinates_samples_witness :
  let a : Coord := (0, 0) in
  let b : Coord := (1, 0) in
  let line := lineString [a; b] in
  let steps := Z.max 5 (Zfloor (chord_length line / 0.5)) in
  length (segmentCoordinates (turf := chordTurf) a b) = S (Z.to_nat steps) /\
  (5 <= length (segmentCoordinates (turf := chordTurf) a b))%nat /\
  (forall j, (j <= Z.to_nat steps)%nat ->
     nth_error (segmentCoordinates (turf := chordTurf) a b) j =
     Some (chord_along line (chord_length line * (INR j / IZR steps)))) /\
  hd_error (segmentCoordinates (turf := chordTurf) a b) = Some a /\
  (forall d, last (segmentCoordinates (turf := chordTurf) a b) d = b).
Proof.
  intros a b line steps.
  apply (segmentCoordinates_samples (turf := chordTurf) a b).
  - apply chord_along_start.
  - assert (Hlen : chord_length (lineString [a; b]) = 1).
    { unfold chord_length, a, b. simpl.
      replace (1 - 0) with 1 by lra. replace (0 - 0) with 0 by lra.
      rewrite Rabs_R1, Rabs_R0. lra. }
    simpl. unfold chord_along. rewrite Hlen. unfold a, b. simpl.
    f_equal; lra.
Defined.

(** ** The distance on a meridian, and the ordering on concrete stops *)

Lemma calculateDistance_meridian lat1 lat2 lon :
  Rabs (lat2 - lat1) < 180 ->
  calculateDistance lat1 lon lat2 lon = 6371 * (Rabs (lat2 - lat1) * PI / 180).
Proof.
  intros Hnear. unfold calculateDistance.
  pose proof PI_RGT_0 as Hpi.
  set (x := (lat2 - lat1) * PI / 180 / 2).
  set (y := Rabs x).
  assert (Hy : y = Rabs (lat2 - lat1) * PI / 180 / 2).
  { unfold y, x.
    replace ((lat2 - lat1) * PI / 180 / 2)
      with ((lat2 - lat1) * (PI / 360)) by lra.
    rewrite Rabs_mult, (Rabs_right (PI / 360)) by lra. lra. }
  assert (Hy0 : 0 <= y) by apply Rabs_pos.
  assert (Hy1 : y < PI / 2).
  { rewrite Hy.
    apply Rmult_lt_reg_r with (360 / PI).
    - apply Rdiv_lt_0_compat; lra.
    - field_simplify; lra. }
  replace ((lon - lon) * PI / 180 / 2) with 0 by lra.
  rewrite sin_0.
  replace (sin x * sin x + cos (lat1 * PI / 180) * cos (lat2 * PI / 180) * 0 * 0)
    with (sin y * sin y).
  2:{ unfold y. destruct (Rcase_abs x) as [Hneg|Hpos].
      - rewrite (Rabs_left x Hneg), sin_neg. lra.
      - rewrite (Rabs_right x Hpos). lra. }
  assert (Hsin : 0 <= sin y) by (apply sin_ge_0; lra).
  assert (Hcos : 0 < cos y) by (apply cos_gt_0; lra).
  rewrite (sqrt_square (sin y) Hsin).
  replace (1 - sin y * sin y) with (cos y * cos y)
    by (pose proof (sin2_cos2 y) as Hsc; unfold Rsqr in Hsc; lra).
  rewrite sqrt_square by lra.
  unfold Math_atan2. destruct (Rlt_dec 0 (cos y)) as [_|Hno]; [|contradiction].
  change (sin y / cos y) with (tan y).
  rewrite atan_tan by lra. lra.
Qed.

Lemma calculateDistance_same_point lat lon :
  calculateDistance lat lon lat lon = 0.
Proof.
  rewrite calculateDistance_meridian.
  - replace (lat - lat) with 0 by lra. rewrite Rabs_R0. lra.
  - replace (lat - lat) with 0 by lra. rewrite Rabs_R0. lra.
Qed.

Lemma distanceTo_north la lb lon ident :
  0 <= lb - la < 180 ->
  distanceTo (Location.mk la lon) (placeAt ident lb lon) =
  6371 * PI / 180 * (lb - la).
Proof.
  intros Hnorth. unfold distanceTo. simpl.
  rewrite calculateDistance_meridian; rewrite Rabs_right; lra.
Qed.

(** Decides the comparisons of a scan over stops north of the current
    point, on its meridian. *)
Ltac scan_north :=
  pose proof PI_RGT_0;
  unfold closestIdx, north1, north1', north2, north3; simpl;
  repeat match goal with
    | |- context [Rlt_dec ?a ?b] =>
        let Hlt := fresh "Hlt" in
        let Hge := fresh "Hge" in
        destruct (Rlt_dec a b) as [Hlt|Hge];
        [ try (exfalso; rewrite !distanceTo_north in Hlt by lra; lra)
        | try (exfalso; apply Hge; rewrite !distanceTo_north by lra; lra) ]
    end;
  try reflexivity.

(** Two places at the same location: the one that comes first in the
    selection is visited first. *)
Example orderedPlaces_tie :
  orderedPlaces 2 scenarioOrigin [north1; north1'] =
  Some (Normal [north1; north1']).
Proof.
  unfold orderedPlaces, scenarioOrigin, fst, snd.
  assert (Hk : closestIdx (Location.mk 37 (-122)) north1 [north1'] = 0%nat).
  { scan_north. }
  rewrite (orderLoop_step _ _ _ _ _ north1) by now rewrite Hk.
  rewrite Hk. reflexivity.
Qed.

(** Three stops to the north, selected farthest first: they are visited
    nearest first. *)
Example orderedPlaces_north :
  orderedPlaces 3 scenarioOrigin [north3; north1; north2] =
  Some (Normal [north1; north2; north3]).
Proof.
  unfold orderedPlaces, scenarioOrigin, fst, snd.
  assert (Hk1 : closestIdx (Location.mk 37 (-122)) north3 [north1; north2]
                = 1%nat).
  { scan_north. }
  rewrite (orderLoop_step _ _ _ _ _ north1) by now rewrite Hk1.
  rewrite Hk1. unfold removeAt. simpl.
  assert (Hk2 : closestIdx (Location.mk (3701 / 100) (-122)) north3 [north2]
                = 1%nat).
  { scan_north. }
  rewrite Hk2. reflexivity.
Qed.

(** * More of the component *)

(** ** togglePlaceSelection *)

Lemma isSelected_by_filter (l : list Place.t) (q : Place.t) :
  isSelected l q =
  match filter (fun p => String.eqb (Place.id p) (Place.id q)) l with
  | [] => false
  | _ :: _ => true
  end.
Proof.
  unfold isSelected. induction l as [|p l IH]; simpl; trivial.
  destruct (String.eqb (Place.id p) (Place.id q)); simpl; trivial.
Qed.

Lemma NoDup_map_filter {A B : Type} (f : A -> B) (keep : A -> bool)
    (l : list A) :
  NoDup (map f l) -> NoDup (map f (filter keep l)).
Proof.
  induction l as [|x l IH]; simpl; trivial.
  intros Hnodup. inversion Hnodup as [|? ? Hnotin Hrest]; subst.
  destruct (keep x); simpl; [|now apply IH].
  constructor; [|now apply IH].
  intros Hin. apply Hnotin.
  apply in_map_iff in Hin as (y & Hy & Hfy).
  apply in_map_iff. exists y. split; trivial.
  now apply filter_In in Hfy.
Qed.

Lemma NoDup_app_singleton {A : Type} (l : list A) (x : A) :
  NoDup l -> ~ In x l -> NoDup (l ++ [x]).
Proof.
  intros Hnodup Hnotin. induction l as [|y l IH]; simpl.
  - constructor; [intros []|constructor].
  - inversion Hnodup as [|? ? Hy Hrest]; subst.
    constructor.
    + intros Hin. apply in_app_or in Hin as [Hin|[Hin|[]]].
      * now apply Hy.
      * apply Hnotin. now left.
    + apply IH; trivial. intros Hin. apply Hnotin. now right.
Qed.

Section Toggle.
Variable place : Place.t.

Lemma isSelected_false_filter (l : list Place.t) :
  isSelected l place = false ->
  filter (fun p => negb (String.eqb (Place.id p) (Place.id place))) l = l.
Proof.
  unfold isSelected. induction l as [|p l IH]; simpl; trivial.
  intros Hnone. apply orb_false_iff in Hnone as (Hp & Hl).
  rewrite Hp. simpl. f_equal. now apply IH.
Qed.

Lemma isSelected_filter_out (l : list Place.t) :
  isSelected
    (filter (fun p => negb (String.eqb (Place.id p) (Place.id place))) l)
    place = false.
Proof.
  unfold isSelected. induction l as [|p l IH]; simpl; trivial.
  destruct (String.eqb (Place.id p) (Place.id place)) eqn:Hp; simpl; trivial.
  now rewrite Hp.
Qed.

Lemma isSelected_app_self (l : list Place.t) :
  isSelected (l ++ [place]) place = true.
Proof.
  unfold isSelected. rewrite existsb_app. simpl.
  rewrite String.eqb_refl. now rewrite orb_true_r.
Qed.

(** X1. A click on a place flips whether its identifier is selected, and
    resets the route. *)
Theorem togglePlaceSelection_flips (st : PlannerState) :
  isSelected (selectedPlaces (togglePlaceSelection place st)) place =
  negb (isSelected (selectedPlaces st) place) /\
  optimizedRoute (togglePlaceSelection place st) = None.
Proof.
  split; [|reflexivity]. simpl.
  destruct (isSelected (selectedPlaces st) place) eqn:Hsel; simpl.
  - apply isSelected_filter_out.
  - apply isSelected_app_self.
Qed.

(** X2. A click on a place leaves the selected places with another
    identifier as they are: the same places in the same order, whatever
    their identifiers, and each as selected as before. *)
Theorem togglePlaceSelection_keeps_others (st : PlannerState) (q : Place.t) :
  filter (fun p => negb (String.eqb (Place.id p) (Place.id place)))
    (selectedPlaces (togglePlaceSelection place st)) =
  filter (fun p => negb (String.eqb (Place.id p) (Place.id place)))
    (selectedPlaces st) /\
  (Place.id q <> Place.id place ->
   filter (fun p => String.eqb (Place.id p) (Place.id q))
     (selectedPlaces (togglePlaceSelection place st)) =
   filter (fun p => String.eqb (Place.id p) (Place.id q)) (selectedPlaces st) /\
   isSelected (selectedPlaces (togglePlaceSelection place st)) q =
   isSelected (selectedPlaces st) q).
Proof.
  assert (Hothers :
    filter (fun p => negb (String.eqb (Place.id p) (Place.id place)))
      (selectedPlaces (togglePlaceSelection place st)) =
    filter (fun p => negb (String.eqb (Place.id p) (Place.id place)))
      (selectedPlaces st)).
  { simpl. destruct (isSelected (selectedPlaces st) place).
    - induction (selectedPlaces st) as [|p l IH]; simpl; trivial.
      destruct (String.eqb (Place.id p) (Place.id place)) eqn:Hp; simpl;
        trivial.
      rewrite Hp. simpl. now f_equal.
    - rewrite filter_app. simpl. rewrite String.eqb_refl. simpl.
      apply app_nil_r. }
  split; [exact Hothers|].
  intros Hother.
  assert (Hsub : forall l,
    filter (fun p => String.eqb (Place.id p) (Place.id q))
      (filter (fun p => negb (String.eqb (Place.id p) (Place.id place))) l) =
    filter (fun p => String.eqb (Place.id p) (Place.id q)) l).
  { induction l as [|p l IH]; simpl; trivial.
    destruct (String.eqb_spec (Place.id p) (Place.id place)) as [Hp|Hp];
      simpl.
    - destruct (String.eqb_spec (Place.id p) (Place.id q)) as [Hq|Hq].
      + congruence.
      + exact IH.
    - destruct (String.eqb (Place.id p) (Place.id q)); now rewrite IH. }
  assert (Hfilter :
    filter (fun p => String.eqb (Place.id p) (Place.id q))
      (selectedPlaces (togglePlaceSelection place st)) =
    filter (fun p => String.eqb (Place.id p) (Place.id q)) (selectedPlaces st)).
  { rewrite <- (Hsub (selectedPlaces (togglePlaceSelection place st))).
    rewrite Hothers. apply Hsub. }
  split; [exact Hfilter|].
  rewrite 2!(isSelected_by_filter _ q). now rewrite Hfilter.
Qed.

(** X3. Two clicks on a place that is not selected give the selection
    back as it was. *)
Theorem togglePlaceSelection_twice (st : PlannerState) :
  isSelected (selectedPlaces st) place = false ->
  selectedPlaces (togglePlaceSelection place (togglePlaceSelection place st)) =
  selectedPlaces st.
Proof.
  intros Hnot. simpl. rewrite Hnot, isSelected_app_self.
  rewrite filter_app. simpl. rewrite String.eqb_refl. simpl.
  rewrite app_nil_r. now apply isSelected_false_filter.
Qed.

(** X4. After two clicks on a selected place the places with its
    identifier are gone and the clicked place is last. The selection is
    given back exactly when the clicked place was its last element and no
    other selected place had its identifier. *)
Theorem togglePlaceSelection_twice_selected (st : PlannerState) :
  isSelected (selectedPlaces st) place = true ->
  selectedPlaces (togglePlaceSelection place (togglePlaceSelection place st)) =
  filter (fun p => negb (String.eqb (Place.id p) (Place.id place)))
    (selectedPlaces st) ++ [place] /\
  (selectedPlaces (togglePlaceSelection place (togglePlaceSelection place st)) =
   selectedPlaces st <->
   exists others,
     selectedPlaces st = others ++ [place] /\ isSelected others place = false).
Proof.
  intros Hsel.
  assert (Htwice :
    selectedPlaces
      (togglePlaceSelection place (togglePlaceSelection place st)) =
    filter (fun p => negb (String.eqb (Place.id p) (Place.id place)))
      (selectedPlaces st) ++ [place]).
  { simpl. now rewrite Hsel, isSelected_filter_out. }
  split; [exact Htwice|]. rewrite Htwice. split.
  - intros Hback.
    exists (filter (fun p => negb (String.eqb (Place.id p) (Place.id place)))
              (selectedPlaces st)).
    split; [now symmetry|]. apply isSelected_filter_out.
  - intros (others & Hlast & Hnone). rewrite Hlast.
    rewrite filter_app. simpl. rewrite String.eqb_refl. simpl.
    rewrite app_nil_r. now rewrite (isSelected_false_filter others Hnone).
Qed.

(** X5. If no two selected places share an identifier, that is still so
    after a click. *)
Theorem togglePlaceSelection_NoDup (st : PlannerState) :
  NoDup (map Place.id (selectedPlaces st)) ->
  NoDup (map Place.id (selectedPlaces (togglePlaceSelection place st))).
Proof.
  intros Hnodup. simpl.
  destruct (isSelected (selectedPlaces st) place) eqn:Hsel.
  - now apply NoDup_map_filter.
  - rewrite map_app. simpl.
    apply NoDup_app_singleton; trivial.
    intros Hin. apply in_map_iff in Hin as (p & Hid & Hp).
    unfold isSelected in Hsel.
    assert (Hex : existsb
              (fun p => String.eqb (Place.id p) (Place.id place))
              (selectedPlaces st) = true).
    { apply existsb_exists. exists p. split; trivial.
      now apply String.eqb_eq. }
    congruence.
Qed.

End Toggle.

(** ** The ordering loop on any fuel *)

Lemma orderLoop_finished fuel :
  forall currentPoint pool ordered outcome,
    orderLoop fuel currentPoint pool ordered = Some outcome ->
    exists tour,
      outcome = Normal (ordered ++ tour) /\ GreedyTour currentPoint pool tour.
Proof.
  induction fuel as [|fuel IH]; intros currentPoint pool ordered outcome Hrun.
  - destruct pool as [|first others]; simpl in Hrun; [|discriminate].
    injection Hrun as <-. exists []. split; [now rewrite app_nil_r|constructor].
  - destruct pool as [|first others].
    + simpl in Hrun. injection Hrun as <-.
      exists []. split; [now rewrite app_nil_r|constructor].
    + destruct (closestIdx_nearest currentPoint first others) as (p & Hnear).
      pose proof Hnear as (Hnth & _).
      rewrite (orderLoop_step _ _ _ _ _ p Hnth) in Hrun.
      apply IH in Hrun as (tour & -> & Htour).
      exists (p :: tour). split.
      * now rewrite <- app_assoc.
      * econstructor; eassumption.
Qed.

Lemma orderLoop_too_little_fuel fuel :
  forall currentPoint pool ordered,
    (fuel < length pool)%nat ->
    orderLoop fuel currentPoint pool ordered = None.
Proof.
  induction fuel as [|fuel IH]; intros currentPoint pool ordered Hfuel.
  - destruct pool; simpl in *; [lia|reflexivity].
  - destruct pool as [|first others]; [simpl in Hfuel; lia|].
    destruct (closestIdx_nearest currentPoint first others) as (p & Hnth & _).
    rewrite (orderLoop_step _ _ _ _ _ p Hnth). apply IH.
    pose proof (removeAt_length _ _ _ Hnth) as Hlen. simpl in Hfuel, Hlen. lia.
Qed.

(** X6. The ordering is idempotent: the places in the order that
    [optimizeRoute] has given them, ordered again from the same location,
    stay in that order. *)
Theorem orderedPlaces_idempotent (fuel : nat) (userLocation : Coord)
    (selectedPlaces tour : list Place.t) :
  orderedPlaces fuel userLocation selectedPlaces = Some (Normal tour) ->
  orderedPlaces (length tour) userLocation tour = Some (Normal tour).
Proof.
  intros Hrun. unfold orderedPlaces in *.
  apply orderLoop_finished in Hrun as (tour' & [= ->] & Htour).
  simpl in *.
  destruct (orderLoop_greedy (length tour') tour' eq_refl 0
              (Location.mk (fst userLocation) (snd userLocation)) [])
    as (again & Hrun & Hagain).
  rewrite Nat.add_0_r in Hrun. rewrite Hrun. do 2 f_equal. simpl.
  apply (GreedyTour_deterministic _ _ _ Hagain).
  clear Hrun Hagain again.
  induction Htour as [|currentPoint pool k p tour Hnear Hrest IH].
  - constructor.
  - apply (GreedyTour_next currentPoint (p :: tour) 0 p tour); [|exact IH].
    destruct Hnear as (Hnth & Hmin & _).
    pose proof (GreedyTour_Permutation _ _ _ Hrest) as Hperm.
    repeat split.
    + intros j q Hq. apply nth_error_In in Hq.
      assert (Hin : In q pool).
      { apply (Permutation_in q (Permutation_sym
                 (removeAt_Permutation k pool p Hnth))).
        destruct Hq as [<-|Hq]; [now left|right].
        now apply (Permutation_in q (Permutation_sym Hperm)). }
      apply In_nth_error in Hin as (i & Hi). now apply (Hmin i).
    + intros j q Hj. lia.
Qed.

(** ** The handlers never store a route *)

Section HandlerFacts.
Context {turf : Turf}.

(** X7. [generateItinerary] stores no route and calls no callback: it
    leaves the component as it was but for the console, where it logs one
    TypeError when the user location is known and a place is selected. *)
Theorem generateItinerary_only_logs (userLocation : option Coord)
    (st : PlannerState) :
  generateItinerary userLocation st =
  {| selectedPlaces := selectedPlaces st;
     optimizedRoute := optimizedRoute st;
     transportMode := transportMode st;
     consoleErrors :=
       match userLocation, selectedPlaces st with
       | Some _, _ :: _ =>
           consoleErrors st ++ [TypeError "steps.push is not a function"]
       | _, _ => consoleErrors st
       end;
     routesGenerated := routesGenerated st |}.
Proof.
  unfold generateItinerary.
  destruct userLocation as [userLocation|];
    destruct st as [selected route mode errors routes]; simpl;
    destruct selected as [|p ps]; try reflexivity.
Qed.

(** X8. Whenever [optimizeRoute] finishes, on whatever fuel, the selection
    is a permutation of what it was; the route is the one stored before and
    the callback has not been called; a TypeError is logged when the
    ordering ran. *)
Theorem optimizeRoute_finished (fuel : nat) (userLocation : Coord)
    (st st' : PlannerState) :
  optimizeRoute fuel (Some userLocation) st = Some st' ->
  Permutation (selectedPlaces st) (selectedPlaces st') /\
  optimizedRoute st' = optimizedRoute st /\
  routesGenerated st' = routesGenerated st /\
  transportMode st' = transportMode st /\
  consoleErrors st' =
    match selectedPlaces st with
    | [] => consoleErrors st
    | _ :: _ => consoleErrors st ++ [TypeError "steps.push is not a function"]
    end.
Proof.
  unfold optimizeRoute.
  destruct (selectedPlaces st) as [|p ps] eqn:Hsel.
  - intros [= <-]. rewrite Hsel. repeat split; constructor.
  - destruct (orderedPlaces fuel userLocation (p :: ps)) as [outcome|] eqn:Hrun;
      [|discriminate].
    unfold orderedPlaces in Hrun.
    apply orderLoop_finished in Hrun as (tour & -> & Htour). simpl.
    pose proof (GreedyTour_Permutation _ _ _ Htour) as Hperm.
    destruct tour as [|q tour].
    + symmetry in Hperm. now apply Permutation_nil in Hperm.
    + rewrite routeInto_logs_TypeError. intros [= <-]. simpl.
      repeat split; trivial.
Qed.

(** X9. After [handleSubmitItinerary] the directions are on the screen
    exactly when a route was stored before the click: the handler turns
    [showDirections] on, and the route it asks [generateItinerary] for never
    arrives. *)
Theorem handleSubmitItinerary_directions (userLocation : option Coord)
    (v : ViewState) :
  showDirections (handleSubmitItinerary userLocation v) = true /\
  optimizedRoute (planner (handleSubmitItinerary userLocation v)) =
    optimizedRoute (planner v) /\
  directionsShown (handleSubmitItinerary userLocation v) =
    match optimizedRoute (planner v) with Some _ => true | None => false end.
Proof.
  assert (Hroute :
    optimizedRoute (planner (handleSubmitItinerary userLocation v)) =
    optimizedRoute (planner v)).
  { unfold handleSubmitItinerary. simpl.
    destruct (optimizedRoute (planner v)) as [route|] eqn:Hstored; simpl.
    - exact Hstored.
    - rewrite generateItinerary_only_logs. simpl. exact Hstored. }
  repeat split; trivial.
  unfold directionsShown. now rewrite Hroute.
Qed.

Lemma handleEvent_keeps_no_route places userLocation fuel e v v' :
  handleEvent places userLocation fuel e v = Some v' ->
  optimizedRoute (planner v) = None /\ routesGenerated (planner v) = [] ->
  optimizedRoute (planner v') = None /\ routesGenerated (planner v') = [].
Proof.
  intros Hstep (Hroute & Hcalls).
  destruct e; simpl in Hstep.
  - injection Hstep as <-. simpl. now split.
  - injection Hstep as <-. simpl. now split.
  - injection Hstep as <-. simpl. now split.
  - destruct (selectedPlaces (planner v)); injection Hstep as <-;
      [now split|].
    simpl. rewrite generateItinerary_only_logs. simpl. now split.
  - destruct (selectedPlaces (planner v)) as [|p [|q ps]] eqn:Hsel;
      try (injection Hstep as <-; now split).
    destruct userLocation as [userLocation|].
    + destruct (optimizeRoute fuel (Some userLocation) (planner v))
        as [st'|] eqn:Hrun; [|discriminate].
      injection Hstep as <-. simpl.
      apply optimizeRoute_finished in Hrun
        as (_ & Hroute' & Hcalls' & _).
      split; congruence.
    + unfold optimizeRoute in Hstep. injection Hstep as <-. now split.
  - destruct (selectedPlaces (planner v)); injection Hstep as <-;
      [now split|].
    destruct (handleSubmitItinerary_directions userLocation v)
      as (_ & Hroute' & _).
    split; [congruence|].
    unfold handleSubmitItinerary. rewrite Hroute. simpl.
    rewrite generateItinerary_only_logs. exact Hcalls.
  - injection Hstep as <-. now split.
  - rewrite Hroute in Hstep. injection Hstep as <-. now split.
Qed.

(** X10. Whatever the user does from the first rendering on, the component
    never has a route: [optimizedRoute] stays null, [onRouteGenerated] is
    never called, and the directions are never on the screen. *)
Theorem component_never_has_route (places : list Place.t)
    (userLocation : option Coord) (es : list (nat * Event)) (v : ViewState) :
  handleEvents places userLocation es (initialView places) = Some v ->
  optimizedRoute (planner v) = None /\
  routesGenerated (planner v) = [] /\
  directionsShown v = false.
Proof.
  assert (Hinv : forall es v0 v1,
    handleEvents places userLocation es v0 = Some v1 ->
    optimizedRoute (planner v0) = None /\ routesGenerated (planner v0) = [] ->
    optimizedRoute (planner v1) = None /\ routesGenerated (planner v1) = []).
  { clear es v. induction es as [|(fuel, e) es IH]; intros v0 v1 Hrun Hv0.
    - simpl in Hrun. now injection Hrun as <-.
    - simpl in Hrun.
      destruct (handleEvent places userLocation fuel e v0) as [v0'|] eqn:Hstep;
        [|discriminate].
      apply (IH v0' v1 Hrun).
      now apply (handleEvent_keeps_no_route _ _ _ _ _ _ Hstep). }
  intros Hrun.
  destruct (Hinv es _ v Hrun) as (Hroute & Hcalls); [now split|].
  repeat split; trivial.
  unfold directionsShown. rewrite Hroute. apply andb_false_r.
Qed.

End HandlerFacts.

(** ** calculateDistance *)

Lemma calculateDistance_by_a lat1 lon1 lat2 lon2 :
  calculateDistance lat1 lon1 lat2 lon2 =
  6371 * (2 * Math_atan2 (sqrt (haversine_a lat1 lon1 lat2 lon2))
                         (sqrt (1 - haversine_a lat1 lon1 lat2 lon2))).
Proof. reflexivity. Qed.

Lemma haversine_a_sym lat1 lon1 lat2 lon2 :
  haversine_a lat1 lon1 lat2 lon2 = haversine_a lat2 lon2 lat1 lon1.
Proof.
  unfold haversine_a.
  replace ((lat1 - lat2) * PI / 180 / 2)
    with (- ((lat2 - lat1) * PI / 180 / 2)) by lra.
  replace ((lon1 - lon2) * PI / 180 / 2)
    with (- ((lon2 - lon1) * PI / 180 / 2)) by lra.
  rewrite !sin_neg. ring.
Qed.

(** X11. The distance from a point to itself is 0. *)
Theorem calculateDistance_identical (lat lon : R) :
  calculateDistance lat lon lat lon = 0.
Proof.
  rewrite calculateDistance_by_a.
  assert (Ha : haversine_a lat lon lat lon = 0).
  { unfold haversine_a.
    replace ((lat - lat) * PI / 180 / 2) with 0 by lra.
    replace ((lon - lon) * PI / 180 / 2) with 0 by lra.
    rewrite sin_0. ring. }
  rewrite Ha, Rminus_0_r, sqrt_0, sqrt_1.
  unfold Math_atan2. destruct (Rlt_dec 0 1) as [_|Hno]; [|lra].
  unfold Rdiv. rewrite Rmult_0_l, atan_0. ring.
Qed.

(** X12. The distance is symmetric in its two points. *)
Theorem calculateDistance_symmetric (lat1 lon1 lat2 lon2 : R) :
  calculateDistance lat1 lon1 lat2 lon2 = calculateDistance lat2 lon2 lat1 lon1.
Proof.
  rewrite !calculateDistance_by_a. now rewrite haversine_a_sym.
Qed.


(** ** formatDuration and formatDistance *)

Lemma Math_round_integer (n : Z) : Math_round (IZR n) = IZR n.
Proof.
  unfold Math_round. rewrite (Zfloor_eq n); [reflexivity|]. lra.
Qed.

Lemma Math_round_half_up (n : Z) (x : R) :
  IZR n - / 2 <= x < IZR n + / 2 -> Math_round x = IZR n.
Proof.
  intros Hx. unfold Math_round. rewrite (Zfloor_eq n); [reflexivity|]. lra.
Qed.

Lemma Zfloor_div_60 (m : Z) : Zfloor (IZR m / 60) = (m / 60)%Z.
Proof.
  apply Zfloor_eq.
  pose proof (Z.div_mod m 60 ltac:(lia)) as Hdm.
  pose proof (Z.mod_pos_bound m 60 ltac:(lia)) as (Hr0 & Hr1).
  apply IZR_le in Hr0. apply IZR_lt in Hr1.
  assert (Hm : IZR m = 60 * IZR (m / 60) + IZR (m mod 60))
    by (rewrite <- mult_IZR, <- plus_IZR; now f_equal).
  lra.
Qed.

Section FormattingFacts.
Context {text : NumberText}.

(** X16. A whole number of minutes is shown exactly: below 60 as itself,
    from 60 on as the hours and the remaining minutes, which are below 60
    and add up to the number. *)
Theorem formatDuration_whole_minutes (m : Z) :
  formatDuration (IZR m) =
  (if (m <? 60)%Z
   then Number_toString (IZR m) ++ " min"
   else Number_toString (IZR (m / 60)) ++ " h " ++
        Number_toString (IZR (m mod 60)) ++ " min")%string /\
  (60 * (m / 60) + m mod 60 = m)%Z /\
  (0 <= m mod 60 < 60)%Z.
Proof.
  pose proof (Z.div_mod m 60 ltac:(lia)) as Hdm.
  pose proof (Z.mod_pos_bound m 60 ltac:(lia)) as Hmod.
  split; [|split; [lia|exact Hmod]].
  unfold formatDuration.
  destruct (Z.ltb_spec m 60) as [Hlt|Hge].
  - destruct (Rlt_dec (IZR m) 60) as [_|Hno].
    + now rewrite Math_round_integer.
    + exfalso. apply Hno. now apply IZR_lt.
  - destruct (Rlt_dec (IZR m) 60) as [Hlt|_].
    + apply lt_IZR in Hlt. lia.
    + unfold Math_floor. rewrite Zfloor_div_60.
      replace (js_rem (IZR m) 60) with (IZR (m mod 60)).
      * now rewrite Math_round_integer.
      * unfold js_rem, Ztrunc.
        assert (Hm : 60 <= IZR m) by now apply IZR_le.
        destruct (Rlt_dec (IZR m / 60) 0) as [Hneg|_]; [lra|].
        rewrite Zfloor_div_60.
        assert (HmR : IZR m = 60 * IZR (m / 60) + IZR (m mod 60))
          by (rewrite <- mult_IZR, <- plus_IZR; now f_equal).
        lra.
Qed.

(** X17. When the minutes are not whole the rounding can reach 60: from
    59.5 up to 60 the text is "60 min", and from 59.5 up to 60 minutes past
    a full hour h it is "h h 60 min". *)
Theorem formatDuration_sixty_minutes (minutes : R) (h : Z) :
  (0 <= h)%Z ->
  IZR (60 * h) + 595 / 10 <= minutes < IZR (60 * h) + 60 ->
  formatDuration minutes =
  (if (h =? 0)%Z
   then Number_toString 60 ++ " min"
   else Number_toString (IZR h) ++ " h " ++ Number_toString 60 ++ " min")%string.
Proof.
  intros Hh Hminutes. rewrite mult_IZR in Hminutes.
  assert (Hh' : 0 <= IZR h) by now apply IZR_le.
  unfold formatDuration.
  destruct (Z.eqb_spec h 0) as [->|Hpos].
  - destruct (Rlt_dec minutes 60) as [_|Hno]; [|lra].
    rewrite (Math_round_half_up 60); [reflexivity|lra].
  - assert (H1 : 1 <= IZR h) by (apply IZR_le; lia).
    destruct (Rlt_dec minutes 60) as [Hlt|_]; [lra|].
    assert (Hfloor : Zfloor (minutes / 60) = h) by (apply Zfloor_eq; lra).
    unfold Math_floor. rewrite Hfloor.
    unfold js_rem, Ztrunc.
    destruct (Rlt_dec (minutes / 60) 0) as [Hneg|_]; [lra|].
    rewrite Hfloor, (Math_round_half_up 60); [reflexivity|lra].
Qed.

(** X18. Below 1000 m the metres are rounded to a whole number, so from
    999.5 m on the text is "1000 m"; the kilometres start at 1000 m. *)
Theorem formatDistance_just_below_1000 (meters : R) :
  9995 / 10 <= meters < 1000 ->
  formatDistance meters = (Number_toString 1000 ++ " m")%string.
Proof.
  intros Hmeters. unfold formatDistance.
  destruct (Rle_dec 1000 meters) as [Hle|_]; [lra|].
  rewrite (Math_round_half_up 1000); [reflexivity|lra].
Qed.

(** X19. The total of a route is shown from [route.distance * 1000], and
    [route.distance] has one decimal: a total below 0.95 km is shown as a
    multiple of 100 m, from 0 m to 900 m. *)
Theorem formatDistance_of_short_route (totalDistance : R) :
  0 <= totalDistance < 95 / 100 ->
  let tenths := Zfloor (totalDistance * 10 + / 2) in
  (0 <= tenths <= 9)%Z /\
  formatDistance (toFixed1 totalDistance * 1000) =
  (Number_toString (IZR (100 * tenths)) ++ " m")%string.
Proof.
  intros Htotal tenths.
  pose proof (Zfloor_bound (totalDistance * 10 + / 2)) as Hfloor.
  fold tenths in Hfloor.
  assert (Hlow : (0 <= tenths)%Z) by (apply le_IZR; apply IZR_le, Zfloor_lub; simpl; lra).
  assert (Hhigh : (tenths <= 9)%Z).
  { apply Z.lt_succ_r, lt_IZR. simpl. lra. }
  split; [lia|].
  assert (Hfixed : toFixed1 totalDistance = IZR tenths / 10).
  { unfold toFixed1. rewrite Rabs_right by lra.
    assert (Hbig : 1 <= 10 ^ 21) by (apply pow_R1_Rle; lra).
    destruct (Rle_dec (10 ^ 21) totalDistance) as [Hle|_]; [lra|].
    destruct (Rlt_dec totalDistance 0) as [Hneg|_]; [lra|]. reflexivity. }
  rewrite Hfixed. unfold formatDistance.
  apply IZR_le in Hlow, Hhigh.
  destruct (Rle_dec 1000 (IZR tenths / 10 * 1000)) as [Hle|_]; [lra|].
  replace (IZR tenths / 10 * 1000) with (IZR (100 * tenths))
    by (rewrite mult_IZR; lra).
  now rewrite Math_round_integer.
Qed.

End FormattingFacts.

(** ** ItineraryPanel *)

(** Splits on every comparison of the hour with a threshold. *)
Ltac split_hours :=
  rewrite ?Z.geb_leb;
  repeat match goal with
    | |- context [(?a <=? ?b)%Z] => destruct (Z.leb_spec a b)
    end;
  try lia.

(** X20. At every hour the itinerary of the day has an item, and the
    identifiers of its items, the keys of the list, increase. *)
Theorem dynamicItinerary_keys (hour : Z) :
  dynamicItinerary hour <> [] /\
  StronglySorted Z.lt (map ItineraryItem.id (dynamicItinerary hour)) /\
  NoDup (map ItineraryItem.id (dynamicItinerary hour)).
Proof.
  assert (Hsorted :
    dynamicItinerary hour <> [] /\
    StronglySorted Z.lt (map ItineraryItem.id (dynamicItinerary hour))).
  { unfold dynamicItinerary. split_hours; simpl;
      (split; [discriminate|]);
      repeat (constructor; [|repeat (constructor; try lia)]);
      constructor. }
  destruct Hsorted as (Hsome & Hsorted). repeat split; trivial.
  clear Hsome. induction Hsorted as [|x l _ IH Hall]; constructor; trivial.
  intros Hin. rewrite Forall_forall in Hall. specialize (Hall x Hin). lia.
Qed.

(** X21. From 22 o'clock on the itinerary is tomorrow's breakfast alone:
    at 22 the evening tour, which is added up to 22, is replaced with the
    rest. Before 22 the evening tour is the last item. *)
Theorem dynamicItinerary_evening (hour : Z) :
  (dynamicItinerary hour = [tomorrowBreakfast] <-> (22 <= hour)%Z) /\
  (last (dynamicItinerary hour) breakfast = eveningTour <-> (hour <= 21)%Z).
Proof.
  unfold dynamicItinerary.
  split_hours; simpl; split; split; intros H'; try lia; try reflexivity;
    try discriminate H'.
Qed.

(** X22. Before 22 o'clock the itinerary only loses items from its front
    as the hour goes on: the itinerary of a later hour is the end of the
    itinerary of an earlier one. *)
Theorem dynamicItinerary_shrinks (earlier later : Z) :
  (earlier <= later)%Z -> (later <= 21)%Z ->
  exists n, dynamicItinerary later = skipn n (dynamicItinerary earlier).
Proof.
  intros Horder Hday. unfold dynamicItinerary.
  split_hours; simpl;
    first [ now exists 0%nat | now exists 1%nat | now exists 2%nat
          | now exists 3%nat | now exists 4%nat ].
Qed.

Lemma dynamicItinerary_items (hour : Z) (item : ItineraryItem.t) :
  In item (dynamicItinerary hour) ->
  In item [breakfast; historicalSites; lunch; marketTour; eveningTour;
           tomorrowBreakfast].
Proof.
  unfold dynamicItinerary. split_hours; simpl; intuition.
Qed.

Section PanelFacts.
Context {case : StringCase}.
Hypothesis toLowerCase_ascii :
  forall s, isAscii s = true -> toLowerCase s = asciiLower s.

(** Decides the tests of [find] on the categories of the fetched places. *)
Ltac find_category :=
  unfold matchingPlace, fetchNearbyPlaces;
  cbn [find Place.category ItineraryItem.type breakfast historicalSites lunch
       marketTour eveningTour tomorrowBreakfast];
  rewrite !toLowerCase_ascii by reflexivity;
  repeat match goal with
    | |- context [includes (asciiLower ?a) (asciiLower ?b)] =>
        let v := eval vm_compute in (includes (asciiLower a) (asciiLower b)) in
        change (includes (asciiLower a) (asciiLower b)) with v;
        cbn [find Place.category]
    end;
  reflexivity.

Lemma matchingPlace_dining lat lon item :
  ItineraryItem.type item = "dining" ->
  matchingPlace (fetchNearbyPlaces lat lon) item =
  nth_error (fetchNearbyPlaces lat lon) 1.
Proof.
  intros Htype. unfold matchingPlace. rewrite Htype.
  change (matchingPlace (fetchNearbyPlaces lat lon) breakfast =
          nth_error (fetchNearbyPlaces lat lon) 1).
  find_category.
Qed.

Lemma matchingPlace_sightseeing lat lon item :
  ItineraryItem.type item = "sightseeing" ->
  matchingPlace (fetchNearbyPlaces lat lon) item =
  nth_error (fetchNearbyPlaces lat lon) 2.
Proof.
  intros Htype. unfold matchingPlace. rewrite Htype.
  change (matchingPlace (fetchNearbyPlaces lat lon) historicalSites =
          nth_error (fetchNearbyPlaces lat lon) 2).
  find_category.
Qed.

Lemma matchingPlace_shopping lat lon item :
  ItineraryItem.type item = "shopping" ->
  matchingPlace (fetchNearbyPlaces lat lon) item =
  nth_error (fetchNearbyPlaces lat lon) 3.
Proof.
  intros Htype. unfold matchingPlace. rewrite Htype.
  change (matchingPlace (fetchNearbyPlaces lat lon) marketTour =
          nth_error (fetchNearbyPlaces lat lon) 3).
  find_category.
Qed.

Lemma matchingPlace_tour lat lon item :
  ItineraryItem.type item = "tour" ->
  matchingPlace (fetchNearbyPlaces lat lon) item = None.
Proof.
  intros Htype. unfold matchingPlace. rewrite Htype.
  change (matchingPlace (fetchNearbyPlaces lat lon) eveningTour = None).
  find_category.
Qed.

(** X23. With a user location, at every hour, each item of the panel is
    matched with the first fetched place whose category contains its type:
    the dining items are sent to Local Cafe (never to Sunset Restaurant),
    sightseeing to City Museum, the market tour to Central Market, and the
    evening tour, whose type is in no category, stays without a location. *)
Theorem panelItinerary_places (hour : Z) (userLocation : Coord)
    (item : ItineraryItem.t) :
  In item (panelItinerary hour (Some userLocation)) ->
  exists before,
    In before (dynamicItinerary hour) /\
    ItineraryItem.type item = ItineraryItem.type before /\
    if String.eqb (ItineraryItem.type before) "dining" then
      ItineraryItem.activity item =
        (ItineraryItem.activity before ++ " at Local Cafe")%string /\
      ItineraryItem.location item =
        Some "Cozy cafe with great coffee and pastries"
    else if String.eqb (ItineraryItem.type before) "sightseeing" then
      ItineraryItem.activity item =
        (ItineraryItem.activity before ++ " at City Museum")%string /\
      ItineraryItem.location item =
        Some "Historical museum with local artifacts"
    else if String.eqb (ItineraryItem.type before) "shopping" then
      ItineraryItem.activity item =
        (ItineraryItem.activity before ++ " at Central Market")%string /\
      ItineraryItem.location item = Some "Bustling market with local goods"
    else item = before /\ ItineraryItem.location item = None.
Proof.
  unfold panelItinerary, updatedItinerary. intros Hin.
  apply in_map_iff in Hin as (before & <- & Hbefore).
  exists before. split; [exact Hbefore|].
  apply dynamicItinerary_items in Hbefore.
  assert (Htype :
    ItineraryItem.type before = "dining" \/
    ItineraryItem.type before = "sightseeing" \/
    ItineraryItem.type before = "shopping" \/
    (ItineraryItem.type before = "tour" /\
     ItineraryItem.location before = None)).
  { simpl in Hbefore.
    destruct Hbefore as [<-|[<-|[<-|[<-|[<-|[<-|[]]]]]]]; simpl; auto. }
  destruct Htype as [Htype|[Htype|[Htype|(Htype & Hnone)]]].
  - rewrite (matchingPlace_dining _ _ _ Htype), Htype. simpl. auto.
  - rewrite (matchingPlace_sightseeing _ _ _ Htype), Htype. simpl. auto.
  - rewrite (matchingPlace_shopping _ _ _ Htype), Htype. simpl. auto.
  - rewrite (matchingPlace_tour _ _ _ Htype), Htype. simpl. auto.
Qed.

End PanelFacts.

(** X24. The fetched places have seven different identifiers, so, with
    all of them selected as the planner starts, a click on one of them takes
    that place out and no other: six stay selected, the clicked one is not
    among them. *)
Theorem fetchNearbyPlaces_click (lat lon : R) (place : Place.t) :
  In place (fetchNearbyPlaces lat lon) ->
  let clicked :=
    togglePlaceSelection place (planner (initialView (fetchNearbyPlaces lat lon)))
  in
  NoDup (map Place.id (fetchNearbyPlaces lat lon)) /\
  length (selectedPlaces clicked) = 6%nat /\
  ~ In place (selectedPlaces clicked) /\
  (forall other, In other (fetchNearbyPlaces lat lon) -> other <> place ->
     In other (selectedPlaces clicked)).
Proof.
  intros Hin clicked.
  assert (Hnodup : NoDup (map Place.id (fetchNearbyPlaces lat lon))).
  { simpl. repeat (constructor; [simpl; intuition discriminate|]).
    constructor. }
  split; [exact Hnodup|].
  unfold clicked. simpl in Hin |- *.
  destruct Hin as [<-|[<-|[<-|[<-|[<-|[<-|[<-|[]]]]]]]]; simpl;
    (split; [reflexivity|]);
    (split; [intuition discriminate|]);
    intros other Hother Hneq; intuition congruence.
Qed.

(** ** The theorems above at concrete inputs *)

Lemma togglePlaceSelection_keeps_others_witness :
  filter (fun p => String.eqb (Place.id p) (Place.id stopB))
    (selectedPlaces (togglePlaceSelection stopA scenarioState)) =
  filter (fun p => String.eqb (Place.id p) (Place.id stopB))
    (selectedPlaces scenarioState) /\
  isSelected (selectedPlaces (togglePlaceSelection stopA scenarioState)) stopB =
  isSelected (selectedPlaces scenarioState) stopB.
Proof.
  apply (proj2 (togglePlaceSelection_keeps_others stopA scenarioState stopB)).
  simpl. discriminate.
Defined.

Lemma togglePlaceSelection_twice_witness :
  selectedPlaces
    (togglePlaceSelection north1 (togglePlaceSelection north1 scenarioState)) =
  selectedPlaces scenarioState.
Proof.
  apply (togglePlaceSelection_twice north1 scenarioState). reflexivity.
Defined.

Lemma togglePlaceSelection_twice_selected_witness :
  selectedPlaces
    (togglePlaceSelection stopA (togglePlaceSelection stopA scenarioState)) =
  filter (fun p => negb (String.eqb (Place.id p) (Place.id stopA)))
    (selectedPlaces scenarioState) ++ [stopA] /\
  (selectedPlaces
     (togglePlaceSelection stopA (togglePlaceSelection stopA scenarioState)) =
   selectedPlaces scenarioState <->
   exists others,
     selectedPlaces scenarioState = others ++ [stopA] /\
     isSelected others stopA = false).
Proof.
  apply (togglePlaceSelection_twice_selected stopA scenarioState). reflexivity.
Defined.

Lemma togglePlaceSelection_NoDup_witness :
  NoDup (map Place.id
           (selectedPlaces (togglePlaceSelection stopA scenarioState))).
Proof.
  apply (togglePlaceSelection_NoDup stopA scenarioState). simpl.
  constructor; [simpl; intuition discriminate|].
  constructor; [simpl; intuition|constructor].
Defined.

Lemma orderedPlaces_idempotent_witness :
  orderedPlaces (length [north1; north2; north3]) scenarioOrigin
    [north1; north2; north3] =
  Some (Normal [north1; north2; north3]).
Proof.
  apply (orderedPlaces_idempotent 3 scenarioOrigin [north3; north1; north2]).
  exact orderedPlaces_north.
Defined.

Lemma optimizeRoute_north :
  optimizeRoute (turf := chordTurf) 3 (Some scenarioOrigin) northState =
  Some {| selectedPlaces := [north1; north2; north3];
          optimizedRoute := None;
          transportMode := "driving-car";
          consoleErrors := [TypeError "steps.push is not a function"];
          routesGenerated := [] |}.
Proof.
  unfold optimizeRoute, northState. cbn [selectedPlaces].
  rewrite orderedPlaces_north. reflexivity.
Qed.

Lemma optimizeRoute_finished_witness :
  let st' :=
    {| selectedPlaces := [north1; north2; north3];
       optimizedRoute := None;
       transportMode := "driving-car";
       consoleErrors := [TypeError "steps.push is not a function"];
       routesGenerated := [] |} in
  Permutation (selectedPlaces northState) (selectedPlaces st') /\
  optimizedRoute st' = optimizedRoute northState /\
  routesGenerated st' = routesGenerated northState /\
  transportMode st' = transportMode northState /\
  consoleErrors st' =
    match selectedPlaces northState with
    | [] => consoleErrors northState
    | _ :: _ =>
        consoleErrors northState ++ [TypeError "steps.push is not a function"]
    end.
Proof.
  intros st'.
  apply (optimizeRoute_finished (turf := chordTurf) 3 scenarioOrigin
           northState st').
  exact optimizeRoute_north.
Defined.

Lemma component_never_has_route_witness :
  exists v,
    handleEvents (turf := chordTurf) [stopA; stopB] (Some scenarioOrigin)
      [(0%nat, ClickGenerate); (0%nat, ClickSubmit);
       (0%nat, ClickPlace stopA); (0%nat, ClickViewDirections)]
      (initialView [stopA; stopB]) = Some v /\
    optimizedRoute (planner v) = None /\
    routesGenerated (planner v) = [] /\
    directionsShown v = false.
Proof.
  eexists. split; [reflexivity|].
  apply (component_never_has_route (turf := chordTurf) [stopA; stopB]
           (Some scenarioOrigin)
           [(0%nat, ClickGenerate); (0%nat, ClickSubmit);
            (0%nat, ClickPlace stopA); (0%nat, ClickViewDirections)]).
  reflexivity.
Defined.

Lemma formatDuration_sixty_minutes_witness :
  formatDuration (text := plainText) (1196 / 10) =
  (Number_toString (NumberText := plainText) (IZR 1) ++ " h " ++
   Number_toString (NumberText := plainText) 60 ++ " min")%string.
Proof.
  apply (formatDuration_sixty_minutes (text := plainText) (1196 / 10) 1).
  - lia.
  - simpl. lra.
Defined.

Lemma formatDistance_just_below_1000_witness :
  formatDistance (text := plainText) (9997 / 10) =
  (Number_toString (NumberText := plainText) 1000 ++ " m")%string.
Proof.
  apply (formatDistance_just_below_1000 (text := plainText)). lra.
Defined.

Lemma formatDistance_of_short_route_witness :
  let tenths := Zfloor (149 / 1000 * 10 + / 2) in
  (0 <= tenths <= 9)%Z /\
  formatDistance (text := plainText) (toFixed1 (149 / 1000) * 1000) =
  (Number_toString (NumberText := plainText) (IZR (100 * tenths)) ++ " m")%string.
Proof.
  apply (formatDistance_of_short_route (text := plainText) (149 / 1000)). lra.
Defined.

Lemma dynamicItinerary_shrinks_witness :
  exists n, dynamicItinerary 14 = skipn n (dynamicItinerary 9).
Proof.
  apply (dynamicItinerary_shrinks 9 14); lia.
Defined.

Lemma panelItinerary_places_witness :
  let item :=
    {| ItineraryItem.id := 5; ItineraryItem.time := "06:00 PM";
       ItineraryItem.activity := "Evening City Tour";
       ItineraryItem.duration := "2 hours"; ItineraryItem.type := "tour";
       ItineraryItem.icon := Bus; ItineraryItem.location := None |} in
  exists before,
    In before (dynamicItinerary 20) /\
    ItineraryItem.type item = ItineraryItem.type before /\
    if String.eqb (ItineraryItem.type before) "dining" then
      ItineraryItem.activity item =
        (ItineraryItem.activity before ++ " at Local Cafe")%string /\
      ItineraryItem.location item =
        Some "Cozy cafe with great coffee and pastries"
    else if String.eqb (ItineraryItem.type before) "sightseeing" then
      ItineraryItem.activity item =
        (ItineraryItem.activity before ++ " at City Museum")%string /\
      ItineraryItem.location item =
        Some "Historical museum with local artifacts"
    else if String.eqb (ItineraryItem.type before) "shopping" then
      ItineraryItem.activity item =
        (ItineraryItem.activity before ++ " at Central Market")%string /\
      ItineraryItem.location item = Some "Bustling market with local goods"
    else item = before /\ ItineraryItem.location item = None.
Proof.
  intros item.
  apply (panelItinerary_places (case := asciiCase) (fun s _ => eq_refl)
           20 scenarioOrigin item).
  left. reflexivity.
Defined.

Lemma fetchNearbyPlaces_click_witness :
  let place :=
    Place.mk "2" "Local Cafe" (Some "Cozy cafe with great coffee and pastries")
      (Location.mk (37 + 0.01) (-122 - 0.01)) (Some 1.5) (Some "Dining") None in
  let clicked :=
    togglePlaceSelection place
      (planner (initialView (fetchNearbyPlaces 37 (-122)))) in
  NoDup (map Place.id (fetchNearbyPlaces 37 (-122))) /\
  length (selectedPlaces clicked) = 6%nat /\
  ~ In place (selectedPlaces clicked) /\
  (forall other, In other (fetchNearbyPlaces 37 (-122)) -> other <> place ->
     In other (selectedPlaces clicked)).
Proof.
  intros place.
  apply (fetchNearbyPlaces_click 37 (-122) place).
  right. left. reflexivity.
Defined.

(** ** Rounding and sampling *)

Lemma toFixed1_of_tenths (n : Z) :
  toFixed1 (IZR n / 10) = IZR n / 10.
Proof.
  assert (Hpos : forall k : Z, (0 <= k)%Z ->
    (if Rle_dec (10 ^ 21) (IZR k / 10) then IZR k / 10
     else IZR (Zfloor (IZR k / 10 * 10 + / 2)) / 10) = IZR k / 10).
  { intros k Hk. destruct (Rle_dec (10 ^ 21) (IZR k / 10)); trivial.
    rewrite (Zfloor_eq k); [reflexivity|lra]. }
  unfold toFixed1.
  destruct (Z.le_gt_cases 0 n) as [Hn|Hn].
  - assert (Hn' : 0 <= IZR n) by now apply IZR_le.
    rewrite Rabs_right by lra. rewrite (Hpos n Hn).
    destruct (Rlt_dec (IZR n / 10) 0); lra.
  - assert (Hn' : IZR n < 0) by now apply IZR_lt.
    rewrite Rabs_left by lra.
    replace (- (IZR n / 10)) with (IZR (- n) / 10) by (rewrite opp_IZR; lra).
    rewrite (Hpos (- n)%Z) by lia.
    destruct (Rlt_dec (IZR n / 10) 0); [rewrite opp_IZR|]; lra.
Qed.

(** X25. The distance of a Route is its total rounded to a tenth: below
    10^21 it is a whole number of tenths, at most 0.05 from the total;
    rounding it again changes nothing. *)
Theorem toFixed1_tenths (x : R) :
  (Rabs x < 10 ^ 21 ->
   Rabs (toFixed1 x - x) <= 5 / 100 /\
   exists n : Z, toFixed1 x = IZR n / 10) /\
  toFixed1 (toFixed1 x) = toFixed1 x.
Proof.
  assert (Hsmall : Rabs x < 10 ^ 21 ->
    Rabs (toFixed1 x - x) <= 5 / 100 /\ exists n : Z, toFixed1 x = IZR n / 10).
  { intros Hx. unfold toFixed1.
    destruct (Rle_dec (10 ^ 21) (Rabs x)) as [Hbig|_]; [lra|].
    pose proof (Zfloor_bound (Rabs x * 10 + / 2)) as Hfloor.
    set (n := Zfloor (Rabs x * 10 + / 2)) in *.
    destruct (Rlt_dec x 0) as [Hneg|Hpos].
    - rewrite (Rabs_left x Hneg) in Hfloor. split.
      + apply Rabs_le. lra.
      + exists (- n)%Z. rewrite opp_IZR. lra.
    - rewrite (Rabs_right x) in Hfloor by lra. split.
      + apply Rabs_le. lra.
      + now exists n. }
  split; [exact Hsmall|].
  destruct (Rlt_le_dec (Rabs x) (10 ^ 21)) as [Hx|Hx].
  - destruct (Hsmall Hx) as (_ & n & ->). apply toFixed1_of_tenths.
  - assert (Hsame : toFixed1 x = x).
    { unfold toFixed1.
      destruct (Rle_dec (10 ^ 21) (Rabs x)) as [_|Hno]; [|lra].
      destruct (Rlt_dec x 0) as [Hneg|Hpos].
      - rewrite (Rabs_left x Hneg). lra.
      - apply Rabs_right. lra. }
    now rewrite !Hsame.
Qed.

(** X26. "One point every 500m": the samples of a segment are
    [lineDistance / steps] apart along the line, which is less than 0.6 km
    whatever the length, and at least 0.5 km once the line is 2.5 km long;
    a shorter line is cut in five. *)
Theorem sampleSteps_spacing (lineDistance : R) :
  0 <= lineDistance ->
  lineDistance / IZR (sampleSteps lineDistance) < 6 / 10 /\
  (25 / 10 <= lineDistance ->
   5 / 10 <= lineDistance / IZR (sampleSteps lineDistance)) /\
  (lineDistance < 3 -> sampleSteps lineDistance = 5%Z).
Proof.
  intros Hlen. unfold sampleSteps, Math_floor.
  pose proof (Zfloor_bound (lineDistance / 0.5)) as Hfloor.
  set (f := Zfloor (lineDistance / 0.5)) in *.
  assert (H2 : lineDistance / 0.5 = 2 * lineDistance) by lra.
  rewrite H2 in Hfloor.
  destruct (Z.le_gt_cases f 5) as [Hf|Hf].
  - rewrite Z.max_l by lia.
    assert (Hf' : IZR f <= 5) by now apply IZR_le.
    split; [lra|]. split; [intros Hlong; lra|reflexivity].
  - rewrite Z.max_r by lia.
    assert (Hf' : 6 <= IZR f) by (apply IZR_le; lia).
    repeat split.
    + apply Rmult_lt_reg_r with (IZR f); [lra|].
      unfold Rdiv. rewrite Rmult_assoc, Rinv_l by lra. lra.
    + intros _. apply Rmult_le_reg_r with (IZR f); [lra|].
      unfold Rdiv at 2. rewrite Rmult_assoc, Rinv_l by lra. lra.
    + intros Hshort. lra.
Qed.

Lemma sampleSteps_spacing_witness :
  14 / 10 / IZR (sampleSteps (14 / 10)) < 6 / 10 /\
  (25 / 10 <= 14 / 10 ->
   5 / 10 <= 14 / 10 / IZR (sampleSteps (14 / 10))) /\
  (14 / 10 < 3 -> sampleSteps (14 / 10) = 5%Z).
Proof.
  apply (sampleSteps_spacing (14 / 10)). lra.
Defined.

Lemma toFixed1_tenths_witness :
  Rabs (toFixed1 (1234 / 1000) - 1234 / 1000) <= 5 / 100 /\
  exists n : Z, toFixed1 (1234 / 1000) = IZR n / 10.
Proof.
  apply (proj1 (toFixed1_tenths (1234 / 1000))).
  rewrite Rabs_right by lra.
  apply Rlt_le_trans with 2; [lra|].
  apply Rle_trans with (1 + INR 21 * 9); [simpl; lra|].
  replace 10 with (1 + 9) by lra. apply poly; lra.
Defined.

Lemma generateRoute_throws_in_both_modes_witness :
  generateRoute (turf := chordTurf) [userPoint scenarioOrigin; stopA]
    "driving-car" =
    Throw (TypeError "steps.push is not a function") /\
  generateRoute (turf := chordTurf) [userPoint scenarioOrigin; stopA]
    "foot-walking" =
    Throw (TypeError "steps.push is not a function") /\
  ~ (exists driving walking,
       generateRoute (turf := chordTurf) [userPoint scenarioOrigin; stopA]
         "driving-car" = Normal driving /\
       generateRoute (turf := chordTurf) [userPoint scenarioOrigin; stopA]
         "foot-walking" = Normal walking).
Proof.
  apply (generateRoute_throws_in_both_modes (turf := chordTurf)). simpl. lia.
Defined.

(** ** The ordering on doubles: a stop at NaN distance *)

Lemma ltb_NaN_right (x y : float) :
  PrimFloat.is_nan y = true -> PrimFloat.ltb x y = false.
Proof.
  unfold PrimFloat.is_nan. rewrite FloatAxioms.eqb_spec, FloatAxioms.ltb_spec.
  intros Hnan.
  assert (Hy : Prim2SF y = S754_nan).
  { destruct (Prim2SF y) as [s|s| |s m e]; trivial; exfalso.
    - destruct s; discriminate Hnan.
    - destruct s; discriminate Hnan.
    - unfold SFeqb, SFcompare in Hnan.
      rewrite Z.compare_refl, Pos.compare_cont_refl in Hnan.
      destruct s; discriminate Hnan. }
  rewrite Hy. unfold SFltb, SFcompare.
  destruct (Prim2SF x) as [s|s| |s m e]; try reflexivity; now destruct s.
Qed.

Lemma calculateDistance_antipode (lat lon : R) :
  calculateDistance lat lon (- lat) (lon + 180) = 6371 * PI.
Proof.
  pose proof PI_RGT_0 as Hpi.
  unfold calculateDistance.
  replace ((- lat - lat) * PI / 180 / 2) with (- (lat * PI / 180)) by lra.
  replace ((lon + 180 - lon) * PI / 180 / 2) with (PI / 2) by lra.
  replace (- lat * PI / 180) with (- (lat * PI / 180)) by lra.
  rewrite sin_neg, cos_neg, sin_PI2.
  pose proof (sin2_cos2 (lat * PI / 180)) as Hunit. unfold Rsqr in Hunit.
  replace (- sin (lat * PI / 180) * - sin (lat * PI / 180) +
           cos (lat * PI / 180) * cos (lat * PI / 180) * 1 * 1) with 1 by lra.
  replace (1 - 1) with 0 by lra. rewrite sqrt_1, sqrt_0.
  unfold Math_atan2.
  destruct (Rlt_dec 0 0) as [Hlt|_]; [lra|].
  destruct (Rlt_dec 0 1) as [_|Hno]; lra.
Qed.

Section DoublesFacts.
Context {math : Math64}.

Lemma closestScan64_NaN currentPoint rest :
  forall i k d,
    PrimFloat.is_nan d = true ->
    closestScan64 currentPoint i rest k d = (k, d).
Proof.
  induction rest as [|p rest IH]; intros i k d Hnan; simpl; trivial.
  rewrite (ltb_NaN_right _ d Hnan). now apply IH.
Qed.

(** A first pool member at NaN distance is the next place visited, whatever
    the distances of the others. *)
Lemma orderLoop64_NaN_first fuel currentPoint first others ordered :
  PrimFloat.is_nan (distanceTo64 currentPoint first) = true ->
  orderLoop64 (S fuel) currentPoint (first :: others) ordered =
  orderLoop64 fuel
    (Location64.mk (Location64.lat (Place64.location first))
                   (Location64.lon (Place64.location first)))
    others (ordered ++ [first]).
Proof.
  intros Hnan.
  assert (Hidx : closestIdx64 currentPoint first others = 0%nat).
  { unfold closestIdx64. now rewrite closestScan64_NaN. }
  cbn [orderLoop64]. rewrite Hidx. cbn [nth_error filter_index Nat.eqb negb].
  rewrite filter_index_keep_all; [reflexivity|].
  intros idx Hle. destruct idx; [lia|reflexivity].
Qed.

(** C5. With the user at (12, 0) and the selection [P; Q], P (-12, 180)
    at the antipode and Q (13, 0) one degree away: given the sine and cosine
    of 12 degrees and of a right angle as doubles, [a] is 1.0000000000000002,
    [Math.sqrt(1 - a)] and the distance to P are NaN, no [distance <
    closestDistance] is true, and P is visited first. In exact arithmetic Q
    is the nearer, and the first to be visited. *)
Theorem orderedPlaces64_antipode_first :
  Math_sin64 (-0x1.acee9f37bebd5p-3)%float = (-0x1.a9cd9ac4258f5p-3)%float ->
  Math_sin64 0x1.921fb54442d18p+0%float = 1%float ->
  Math_cos64 0x1.acee9f37bebd5p-3%float = 0x1.f4cfc327a008p-1%float ->
  Math_cos64 (-0x1.acee9f37bebd5p-3)%float = 0x1.f4cfc327a008p-1%float ->
  (forall y, Math_atan2_64 y nan = nan) ->
  calculateDistance64 12 0 (-12) 180 = nan /\
  orderedPlaces64 2 (12%float, 0%float) [antipode64; near64] =
    Some (Normal [antipode64; near64]) /\
  calculateDistance 12 0 13 0 < calculateDistance 12 0 (-12) 180 /\
  orderedPlaces 2 (12, 0) [antipode; near] = Some (Normal [near; antipode]).
Proof.
  intros Hsin12 Hsin90 Hcos12 Hcos12' Hatan.
  assert (Hnan : calculateDistance64 12 0 (-12) 180 = nan).
  { unfold calculateDistance64.
    replace ((-12 - 12) * Math_PI64 / 180 / 2)%float
      with (-0x1.acee9f37bebd5p-3)%float by (vm_compute; reflexivity).
    replace ((180 - 0) * Math_PI64 / 180 / 2)%float
      with 0x1.921fb54442d18p+0%float by (vm_compute; reflexivity).
    replace (12 * Math_PI64 / 180)%float
      with 0x1.acee9f37bebd5p-3%float by (vm_compute; reflexivity).
    replace (-12 * Math_PI64 / 180)%float
      with (-0x1.acee9f37bebd5p-3)%float by (vm_compute; reflexivity).
    rewrite Hsin12, Hsin90, Hcos12, Hcos12'.
    replace (-0x1.a9cd9ac4258f5p-3 * -0x1.a9cd9ac4258f5p-3 +
             0x1.f4cfc327a008p-1 * 0x1.f4cfc327a008p-1 * 1 * 1)%float
      with 0x1.0000000000001p+0%float by (vm_compute; reflexivity).
    replace (PrimFloat.sqrt (1 - 0x1.0000000000001p+0))%float with nan
      by (vm_compute; reflexivity).
    rewrite Hatan. vm_compute. reflexivity. }
  pose proof PI_RGT_0 as Hpi.
  assert (Hnear : calculateDistance 12 0 13 0 = 6371 * PI / 180).
  { rewrite calculateDistance_meridian.
    - replace (13 - 12) with 1 by lra. rewrite Rabs_R1. lra.
    - replace (13 - 12) with 1 by lra. rewrite Rabs_R1. lra. }
  assert (Hfar : calculateDistance 12 0 (-12) 180 = 6371 * PI).
  { replace 180 with (0 + 180) by lra. apply calculateDistance_antipode. }
  repeat split.
  - exact Hnan.
  - unfold orderedPlaces64. cbn [fst snd].
    rewrite orderLoop64_NaN_first.
    + reflexivity.
    + unfold distanceTo64, antipode64, placeAt64.
      cbn [Location64.lat Location64.lon Place64.location].
      now rewrite Hnan.
  - lra.
  - unfold orderedPlaces. cbn [fst snd].
    assert (Hidx : closestIdx (Location.mk 12 0) antipode [near] = 1%nat).
    { unfold closestIdx, antipode, near, placeAt. cbn [closestScan].
      unfold distanceTo. cbn [Location.lat Location.lon Place.location].
      rewrite Hnear, Hfar.
      destruct (Rlt_dec (6371 * PI / 180) (6371 * PI)) as [_|Hno];
        [reflexivity|lra]. }
    rewrite (orderLoop_step _ _ _ _ _ near) by now rewrite Hidx.
    rewrite Hidx. reflexivity.
Qed.

End DoublesFacts.

Lemma orderedPlaces64_antipode_first_witness :
  calculateDistance64 (math := antipodeMath) 12 0 (-12) 180 = nan /\
  orderedPlaces64 (math := antipodeMath) 2 (12%float, 0%float)
    [antipode64; near64] =
    Some (Normal [antipode64; near64]) /\
  calculateDistance 12 0 13 0 < calculateDistance 12 0 (-12) 180 /\
  orderedPlaces 2 (12, 0) [antipode; near] = Some (Normal [near; antipode]).
Proof.
  apply (orderedPlaces64_antipode_first (math := antipodeMath)).
  - vm_compute. reflexivity.
  - vm_compute. reflexivity.
  - vm_compute. reflexivity.
  - vm_compute. reflexivity.
  - intros y. reflexivity.
Defined.
